(** * Flask REST tutorial, part 4: Author/Book store and its handlers

    Shallow embedding of [part-4/models.py] and [part-4/app.py].

    The two tables are lists of rows in rowid order (the order in which
    SQLite scans a table when a SELECT carries no ORDER BY).  A handler is
    a function of the store and of the request; a handler that writes
    returns the committed store together with its response, and a handler
    that raises returns [Raise e] and no store (the request's session is
    discarded without commit, so the store stays as it was). *)

From Stdlib Require Import ZArith Ascii String Sorted.
From stdpp Require Import base option list gmap strings.

Local Open Scope Z_scope.

(** ** models.py *)

Module Author.
Record t := mk {
  id : Z;                  (* db.Integer, primary_key=True *)
  name : string;           (* db.String(100), nullable=False *)
  bio : option string;     (* db.Text *)
  city : option string     (* db.String(100) *)
}.
End Author.

Module Book.
Record t := mk {
  id : Z;                  (* db.Integer, primary_key=True *)
  title : string;          (* db.String(200), nullable=False *)
  isbn : option string;    (* db.String(20) *)
  author_id : Z            (* db.Integer, ForeignKey('authors.id'), nullable=False *)
}.

(** The mapped columns of the class, as [order_by] can receive them. *)
Inductive column := Cid | Ctitle | Cisbn | Cauthor_id.
End Book.

(** The database file [books.db]: the rows of [authors] and of [books]. *)
Record Store := {
  authors : list Author.t;
  books : list Book.t
}.

Definition empty_store : Store := {| authors := []; books := [] |}.

(** [__repr__] of the two models: [f"<Author {self.name}>"] and
    [f"<Book {self.title}>"]. *)
Definition Author_repr (a : Author.t) : string :=
  "<Author " +:+ Author.name a +:+ ">".

Definition Book_repr (b : Book.t) : string :=
  "<Book " +:+ Book.title b +:+ ">".

(** ** Exceptions and results *)

Inductive Exn :=
| NotFound                          (* abort(404), raised by get_or_404 and paginate *)
| BadRequestKeyError (key : string) (* request.form[key] with key absent *)
| KeyError (key : string)           (* data[key] on a dict without key *)
| ValueError                        (* int(text) on text that is no integer literal *)
| AttributeError                    (* attribute lookup on an object without it *)
| IntegrityError                    (* NOT NULL constraint failed at flush *)
| NotImplementedError               (* operator a comparator does not provide *)
| OverflowError.                    (* an int too large to bind as SQLite INTEGER *)

(** The status Flask answers with.  An HTTPException carries its own
    code: werkzeug's [NotFound] 404 and [BadRequestKeyError] 400.  In
    debug mode (app.py ends in [app.run(debug=True)]; a WSGI server that
    imports [app] runs it with debug off) Flask traps BadRequestKeyError
    and treats it as unhandled.  Every other exception that leaves a view
    is answered with 500. *)
Definition status_code (debug : bool) (e : Exn) : Z :=
  match e with
  | NotFound => 404
  | BadRequestKeyError _ => if debug then 500 else 400
  | KeyError _ | ValueError | AttributeError | IntegrityError
  | NotImplementedError | OverflowError => 500
  end.

Inductive Result (A : Type) :=
| Return (a : A)
| Raise (e : Exn).
Arguments Return {A} a.
Arguments Raise {A} e.

Definition bind {A B : Type} (r : Result A) (k : A -> Result B) : Result B :=
  match r with
  | Return a => k a
  | Raise e => Raise e
  end.

Notation "x <- r ;; k" := (bind r (fun x => k))
  (at level 100, r at next level, right associativity).

(** A list comprehension whose element expression may raise: the first
    exception, in list order, ends the comprehension. *)
Fixpoint comprehension {A B : Type} (f : A -> Result B) (l : list A)
  : Result (list B) :=
  match l with
  | [] => Return []
  | x :: r => y <- f x ;; ys <- comprehension f r ;; Return (y :: ys)
  end.

(** SQLite holds integers as signed 64-bit values.  Python's sqlite3
    raises OverflowError when a statement is given an int outside that
    range as a parameter, before the statement runs. *)
Definition int64_min : Z := -9223372036854775808.
Definition int64_max : Z := 9223372036854775807.

Definition in_int64 (n : Z) : bool := (int64_min <=? n) && (n <=? int64_max).

Definition bind_integer (n : Z) : Result Z :=
  if in_int64 n then Return n else Raise OverflowError.

(** The store a request leaves behind. *)
Definition store_after {A : Type} (s : Store) (r : Result (Store * A)) : Store :=
  match r with
  | Return (s', _) => s'
  | Raise _ => s
  end.

(** ** The ORM session against SQLite *)

Definition Author_query_all (s : Store) : list Author.t := authors s.
Definition Book_query_all (s : Store) : list Book.t := books s.

(** The answer of [SELECT .. WHERE id = ?] to a key: the row with that
    primary key, or none. *)
Definition Author_row (s : Store) (id : Z) : option Author.t :=
  List.find (fun a => bool_decide (Author.id a = id)) (authors s).

Definition Book_row (s : Store) (id : Z) : option Book.t :=
  List.find (fun b => bool_decide (Book.id b = id)) (books s).

(** [Model.query.get(id)] for an int [id]: the session of a request that
    has loaded nothing yet gives the key to the SELECT as a parameter. *)
Definition Author_query_get (s : Store) (id : Z) : Result (option Author.t) :=
  key <- bind_integer id ;;
  Return (Author_row s key).

Definition Book_query_get (s : Store) (id : Z) : Result (option Book.t) :=
  key <- bind_integer id ;;
  Return (Book_row s key).

(** [.get_or_404(id)]: [abort(404)] when the get answers None. *)
Definition get_or_404 {A : Type} (rv : Result (option A)) : Result A :=
  o <- rv ;;
  match o with
  | Some a => Return a
  | None => Raise NotFound
  end.

(** The rowid SQLite gives a row inserted without one into a table whose
    INTEGER PRIMARY KEY is not AUTOINCREMENT: 1 in an empty table, else
    the largest rowid plus one (ids are 64-bit; the embedding covers
    tables whose largest rowid is below 2^63 - 1). *)
Fixpoint max_rowid (ids : list Z) : option Z :=
  match ids with
  | [] => None
  | i :: r => Some (match max_rowid r with
                    | None => i
                    | Some m => Z.max i m
                    end)
  end.

Definition next_rowid (ids : list Z) : Z :=
  match max_rowid ids with
  | None => 1
  | Some m => m + 1
  end.

(** [db.session.add(Author(name=.., bio=.., city=..)); db.session.commit()]. *)
Definition session_add_author (s : Store) (name : string)
    (bio city : option string) : Store :=
  let a := Author.mk (next_rowid (map Author.id (authors s))) name bio city in
  {| authors := authors s ++ [a]; books := books s |}.

(** [db.session.add(Book(title=.., isbn=.., author_id=..)); db.session.commit()].
    A keyword argument may be None.  The parameters of the INSERT are
    bound first, so an author_id outside the 64-bit range raises
    OverflowError whatever the title is; then the INSERT fails on None in
    a nullable=False column.  The REFERENCES clause on [author_id] is not
    checked: app.py opens 'sqlite:///books.db' and never issues
    PRAGMA foreign_keys=ON, and SQLite enforces foreign keys only on a
    connection that has done so. *)
Definition session_add_book (s : Store) (title isbn : option string)
    (author_id : option Z) : Result Store :=
  match author_id with
  | Some a =>
      a <- bind_integer a ;;
      match title with
      | Some t =>
          let b := Book.mk (next_rowid (map Book.id (books s))) t isbn a in
          Return {| authors := authors s; books := books s ++ [b] |}
      | None => Raise IntegrityError
      end
  | None => Raise IntegrityError
  end.

(** Commit of attribute assignments on a loaded row:
    UPDATE .. WHERE id = <the row's primary key>. *)
Definition session_update_author (s : Store) (a' : Author.t) : Store :=
  {| authors := map (fun a => if bool_decide (Author.id a = Author.id a')
                              then a' else a) (authors s);
     books := books s |}.

(** The UPDATE of a Book is given the new author_id as a parameter. *)
Definition session_update_book (s : Store) (b' : Book.t) : Result Store :=
  _ <- bind_integer (Book.author_id b') ;;
  Return {| authors := authors s;
            books := map (fun b => if bool_decide (Book.id b = Book.id b')
                                   then b' else b) (books s) |}.

(** [author.books], the relationship collection: the Books whose
    author_id is the Author's id. *)
Definition Author_books (s : Store) (a : Author.t) : list Book.t :=
  filter (fun b => Book.author_id b = Author.id a) (books s).

(** [b.author], the backref: the Author whose primary key is the Book's
    author_id, None when there is none.  The key is a value read from
    the table. *)
Definition Book_author (s : Store) (b : Book.t) : option Author.t :=
  Author_row s (Book.author_id b).

(** [db.session.delete(book); db.session.commit()]: DELETE .. WHERE id = ?. *)
Definition session_delete_book (s : Store) (b : Book.t) : Store :=
  {| authors := authors s;
     books := filter (fun x => Book.id x <> Book.id b) (books s) |}.

(** [db.session.delete(author); db.session.commit()].  The relationship
    is declared cascade='all, delete-orphan': the unit of work loads
    [author.books], deletes each of them by primary key, then deletes the
    author row. *)
Definition session_delete_author (s : Store) (a : Author.t) : Store :=
  let owned := map Book.id (Author_books s a) in
  {| authors := filter (fun x => Author.id x <> Author.id a) (authors s);
     books := filter (fun x => Book.id x ∉ owned) (books s) |}.

(** ** Requests and responses *)

(** [request.form] and [request.args]: field name to (first) value. *)
Definition form_getitem (form : gmap string string) (key : string)
  : Result string :=
  match form !! key with
  | Some v => Return v
  | None => Raise (BadRequestKeyError key)
  end.

(** [flash(message); return redirect(url_for('index'))]. *)
Record Redirect := {
  location : string;
  flashed : string
}.

Definition redirect_index (message : string) : Redirect :=
  {| location := "/"; flashed := message |}.

(** One element of the JSON arrays the API returns. *)
Record BookJson := {
  json_id : Z;
  json_title : string;
  json_isbn : option string;
  json_author : string
}.

(** [{"id": b.id, "title": b.title, "isbn": b.isbn, "author": b.author.name}];
    [b.author] is None for a Book without Author row, and [None.name]
    raises AttributeError. *)
Definition book_json (s : Store) (b : Book.t) : Result BookJson :=
  match Book_author s b with
  | Some a => Return {| json_id := Book.id b; json_title := Book.title b;
                        json_isbn := Book.isbn b; json_author := Author.name a |}
  | None => Raise AttributeError
  end.

(** The dict [request.get_json()] returned, read at the three keys the
    view subscripts.  [None]: the key is absent; [Some None]: the key
    holds JSON null; [Some (Some v)]: it holds a value of the column's
    type. *)
Record BookData := {
  data_title : option (option string);
  data_isbn : option (option string);
  data_author_id : option (option Z)
}.

Definition dict_getitem {A : Type} (entry : option A) (key : string) : Result A :=
  match entry with
  | Some v => Return v
  | None => Raise (KeyError key)
  end.

Record SuccessJson := { success : bool }.

(** ** Flask-SQLAlchemy's pagination helper

    [Query.paginate] and the [Pagination] object as Flask-SQLAlchemy 3 has
    them (app.py calls paginate with keyword arguments only, as version 3
    requires).  [Query.paginate] hands its own default max_per_page=None
    on to the Pagination object, so no cap applies unless the caller
    gives one. *)

(** The Pagination object [Query.paginate] returns. *)
Record Pagination := {
  page : Z;
  per_page : Z;
  items : list Book.t;
  total : Z
}.

(** Python's [ceil(a / b)], exactly (the float quotient rounds only for
    operands beyond 2^53). *)
Definition ceil_div (a b : Z) : Z := - ((- a) / b).

(** The [pages] property: 0 when there are no rows, else
    ceil(total / per_page). *)
Definition pages (p : Pagination) : Z :=
  if total p =? 0 then 0 else ceil_div (total p) (per_page p).

(** [_prepare_page_args] for a caller that passes both numbers and leaves
    error_out at True: the cap [max_per_page] applies when given, then a
    page or a per_page below 1 aborts with 404. *)
Definition prepare_page_args (page per_page : Z) (max_per_page : option Z)
  : Result (Z * Z) :=
  let per_page := match max_per_page with
                  | Some m => Z.min m per_page
                  | None => per_page
                  end in
  if page <? 1 then Raise NotFound
  else if per_page <? 1 then Raise NotFound
  else Return (page, per_page).

(** [query.paginate(page=.., per_page=.., max_per_page=..)]: the items are
    [query.limit(per_page).offset((page - 1) * per_page).all()], a SELECT
    with the limit and the offset as parameters; an empty page other than
    page 1 aborts with 404; the total is the row count. *)
Definition paginate (rows : list Book.t) (page per_page : Z)
    (max_per_page : option Z) : Result Pagination :=
  a <- prepare_page_args page per_page max_per_page ;;
  let page := fst a in
  let per_page := snd a in
  limit <- bind_integer per_page ;;
  offset <- bind_integer ((page - 1) * per_page) ;;
  let items := take (Z.to_nat limit) (drop (Z.to_nat offset) rows) in
  if bool_decide (items = []) && negb (page =? 1) then Raise NotFound
  else Return {| page := page; per_page := per_page; items := items;
                 total := Z.of_nat (length rows) |}.

Record PageJson := {
  json_total : Z;
  json_pages : Z;
  json_books : list BookJson
}.

(** ** ORDER BY *)

Inductive ordering :=
| Asc (c : Book.column)
| Desc (c : Book.column).

(** NULL sorts before every text value. *)
Definition option_leb (x y : option string) : bool :=
  match x, y with
  | None, _ => true
  | Some _, None => false
  | Some a, Some b => String.leb a b
  end.

(** Order of two rows by a column: integers by value, text by the BINARY
    collation (bytewise). *)
Definition column_leb (c : Book.column) (x y : Book.t) : bool :=
  match c with
  | Book.Cid => Book.id x <=? Book.id y
  | Book.Ctitle => String.leb (Book.title x) (Book.title y)
  | Book.Cisbn => option_leb (Book.isbn x) (Book.isbn y)
  | Book.Cauthor_id => Book.author_id x <=? Book.author_id y
  end.

Definition ordering_leb (o : ordering) (x y : Book.t) : bool :=
  match o with
  | Asc c => column_leb c x y
  | Desc c => column_leb c y x
  end.

Fixpoint insert_row (leb : Book.t -> Book.t -> bool) (x : Book.t)
    (l : list Book.t) : list Book.t :=
  match l with
  | [] => [x]
  | y :: r => if leb x y then x :: y :: r else y :: insert_row leb x r
  end.

(** [query.order_by(clause).all()].  Rows with equal keys come out in an
    order SQLite does not promise; here they keep their rowid order. *)
Definition order_by (o : ordering) (rows : list Book.t) : list Book.t :=
  foldr (insert_row (ordering_leb o)) [] rows.

(** What [getattr(Book, name, default)] can evaluate to. *)
Inductive attr :=
| AttrColumn (c : Book.column)   (* an InstrumentedAttribute of a column *)
| AttrStr (v : string)           (* a str, as __tablename__ *)
| AttrFunction                   (* a plain function, as __repr__ *)
| AttrOther (e : Exn).           (* any other object; e: see [inherited] *)

(** [column.asc()] and [column.desc()]: a str and a function have no such
    attribute. *)
Definition attr_asc (a : attr) : Result ordering :=
  match a with
  | AttrColumn c => Return (Asc c)
  | AttrStr _ | AttrFunction => Raise AttributeError
  | AttrOther e => Raise e
  end.

Definition attr_desc (a : attr) : Result ordering :=
  match a with
  | AttrColumn c => Return (Desc c)
  | AttrStr _ | AttrFunction => Raise AttributeError
  | AttrOther e => Raise e
  end.

(** ** app.py *)

Section Views.

(** Python's [int] on a str: [Some n] when the text is an integer
    literal, [None] when [int] raises ValueError. *)
Variable int : string -> option Z.

(** The attributes of the class Book that the body of the class in
    models.py does not bind: those it inherits from db.Model and object,
    and those the mapper installs (the backref [author], once mappers are
    configured).  [None]: Book has no such attribute.  [Some e]: it has
    one; no such attribute is a column, and [e] is what calling [.asc()]
    or [.desc()] on it raises. *)
Variable inherited : string -> option Exn.

(** [request.args.get(key, default, type=int)]: the default when the key
    is absent and when the conversion raises ValueError. *)
Definition args_get_int (args : gmap string string) (key : string)
    (dflt : Z) : Z :=
  match args !! key with
  | None => dflt
  | Some v => match int v with
              | Some n => n
              | None => dflt
              end
  end.

(** [request.args.get(key, default)]. *)
Definition args_get (args : gmap string string) (key : string)
    (dflt : string) : string :=
  match args !! key with
  | None => dflt
  | Some v => v
  end.

(** [int(text)]. *)
Definition int_call (text : string) : Result Z :=
  match int text with
  | Some n => Return n
  | None => Raise ValueError
  end.

(** *** Author CRUD *)

Definition add_author (s : Store) (form : gmap string string)
  : Result (Store * Redirect) :=
  name <- form_getitem form "name" ;;
  let bio := form !! "bio" in
  let city := form !! "city" in
  let s' := session_add_author s name bio city in
  Return (s', redirect_index "Author added successfully!").

Definition update_author (s : Store) (id : Z) (form : gmap string string)
  : Result (Store * Redirect) :=
  author <- get_or_404 (Author_query_get s id) ;;
  name <- form_getitem form "name" ;;
  let author := Author.mk (Author.id author) name (form !! "bio")
                          (form !! "city") in
  let s' := session_update_author s author in
  Return (s', redirect_index "Author updated successfully!").

Definition delete_author (s : Store) (id : Z) : Result (Store * Redirect) :=
  author <- get_or_404 (Author_query_get s id) ;;
  let s' := session_delete_author s author in
  Return (s', redirect_index "Author deleted successfully!").

(** *** Book CRUD *)

Definition add_book (s : Store) (form : gmap string string)
  : Result (Store * Redirect) :=
  title <- form_getitem form "title" ;;
  isbn <- form_getitem form "isbn" ;;
  text <- form_getitem form "author_id" ;;
  author_id <- int_call text ;;
  s' <- session_add_book s (Some title) (Some isbn) (Some author_id) ;;
  Return (s', redirect_index "Book added successfully!").

Definition update_book (s : Store) (id : Z) (form : gmap string string)
  : Result (Store * Redirect) :=
  book <- get_or_404 (Book_query_get s id) ;;
  title <- form_getitem form "title" ;;
  isbn <- form_getitem form "isbn" ;;
  text <- form_getitem form "author_id" ;;
  author_id <- int_call text ;;
  let book := Book.mk (Book.id book) title (Some isbn) author_id in
  s' <- session_update_book s book ;;
  Return (s', redirect_index "Book updated successfully!").

Definition delete_book (s : Store) (id : Z) : Result (Store * Redirect) :=
  book <- get_or_404 (Book_query_get s id) ;;
  let s' := session_delete_book s book in
  Return (s', redirect_index "Book deleted successfully!").

(** *** REST APIs *)

Definition api_books (s : Store) : Result (list BookJson) :=
  let books := Book_query_all s in
  comprehension (book_json s) books.

Definition api_add_book (s : Store) (data : BookData)
  : Result (Store * SuccessJson) :=
  title <- dict_getitem (data_title data) "title" ;;
  isbn <- dict_getitem (data_isbn data) "isbn" ;;
  author_id <- dict_getitem (data_author_id data) "author_id" ;;
  s' <- session_add_book s title isbn author_id ;;
  Return (s', {| success := true |}).

(** *** Pagination *)

Definition api_books_paginated (s : Store) (args : gmap string string)
  : Result PageJson :=
  let page := args_get_int args "page" 1 in
  let per_page := args_get_int args "per_page" 5 in
  pagination <- paginate (Book_query_all s) page per_page None ;;
  books <- comprehension (book_json s) (items pagination) ;;
  Return {| json_total := total pagination;
            json_pages := pages pagination;
            json_books := books |}.

(** *** Sorting *)

(** [getattr(Book, name, default)]: the names the class body binds
    (models.py), then the attributes found elsewhere, then the default. *)
Definition getattr_Book (name : string) (dflt : attr) : attr :=
  if decide (name = "id") then AttrColumn Book.Cid
  else if decide (name = "title") then AttrColumn Book.Ctitle
  else if decide (name = "isbn") then AttrColumn Book.Cisbn
  else if decide (name = "author_id") then AttrColumn Book.Cauthor_id
  else if decide (name = "__tablename__") then AttrStr "books"
  else if decide (name = "__repr__") then AttrFunction
  else match inherited name with
       | Some e => AttrOther e
       | None => dflt
       end.

Definition api_books_sorting (s : Store) (args : gmap string string)
  : Result (list BookJson) :=
  let sort := args_get args "sort" "title" in
  let order := args_get args "order" "asc" in
  let column := getattr_Book sort (AttrColumn Book.Ctitle) in
  clause <- (if decide (order = "desc") then attr_desc column
             else attr_asc column) ;;
  let books := order_by clause (Book_query_all s) in
  comprehension (book_json s) books.

End Views.

(** *** The index page *)

(** The keyword arguments [index] hands to
    [render_template('index.html', ...)]. *)
Record IndexContext := {
  ctx_authors : list Author.t;
  ctx_books : list Book.t;
  ctx_edit_author : option Author.t;
  ctx_edit_book : option Book.t
}.

Section Index.

(** [index] passes the query-string text itself to [Model.query.get], so
    the key reaches SQLite as text in [WHERE id = ?].  [numeric text] is
    the integer SQLite compares equal to that text against the INTEGER
    column, [None] when the text equals no integer. *)
Variable numeric : string -> option Z.

Definition Author_query_get_text (s : Store) (key : string)
  : option Author.t :=
  match numeric key with
  | Some k => Author_row s k
  | None => None
  end.

Definition Book_query_get_text (s : Store) (key : string) : option Book.t :=
  match numeric key with
  | Some k => Book_row s k
  | None => None
  end.

(** [X.query.get(key) if key else None] for [key = request.args.get(..)]:
    an absent argument is None and an empty one is falsy. *)
Definition index (s : Store) (args : gmap string string) : IndexContext :=
  let authors := Author_query_all s in
  let books := Book_query_all s in
  let edit_author_id := args !! "edit_author" in
  let edit_book_id := args !! "edit_book" in
  let edit_author :=
    match edit_author_id with
    | Some key => if decide (key = "") then None
                  else Author_query_get_text s key
    | None => None
    end in
  let edit_book :=
    match edit_book_id with
    | Some key => if decide (key = "") then None
                  else Book_query_get_text s key
    | None => None
    end in
  {| ctx_authors := authors; ctx_books := books;
     ctx_edit_author := edit_author; ctx_edit_book := edit_book |}.

End Index.

(** ** The requests that write *)

Inductive Request :=
| PostAddAuthor (form : gmap string string)
| PostUpdateAuthor (id : Z) (form : gmap string string)
| GetDeleteAuthor (id : Z)
| PostAddBook (form : gmap string string)
| PostUpdateBook (id : Z) (form : gmap string string)
| GetDeleteBook (id : Z)
| PostApiAddBook (data : BookData).

(** The store after a request: what its view committed, or the store as
    it was when the view raised. *)
Definition serve (int : string -> option Z) (s : Store) (r : Request) : Store :=
  match r with
  | PostAddAuthor form => store_after s (add_author s form)
  | PostUpdateAuthor id form => store_after s (update_author s id form)
  | GetDeleteAuthor id => store_after s (delete_author s id)
  | PostAddBook form => store_after s (add_book int s form)
  | PostUpdateBook id form => store_after s (update_book int s id form)
  | GetDeleteBook id => store_after s (delete_book s id)
  | PostApiAddBook data => store_after s (api_add_book s data)
  end.

(** The stores the application can be in: [db.create_all()] makes the two
    tables, empty, and every request is served on the store the previous
    one left. *)
Inductive reachable (int : string -> option Z) : Store -> Prop :=
| reachable_created : reachable int empty_store
| reachable_served s r : reachable int s -> reachable int (serve int s r).

(** ** Properties of stores, and sample data *)

(** An Author row with primary key [i] exists. *)
Definition live (s : Store) (i : Z) : Prop :=
  exists a, a ∈ authors s /\ Author.id a = i.

(** Every Book's author_id is the primary key of an Author row. *)
Definition referential_integrity (s : Store) : Prop :=
  Forall (fun b => live s (Book.author_id b)) (books s).

(** Primary keys are unique in each table. *)
Definition unique_keys (s : Store) : Prop :=
  NoDup (map Author.id (authors s)) /\ NoDup (map Book.id (books s)).

(** The status of the response to an API request: 200 with the JSON body
    when the view returns. *)
Definition api_status {A : Type} (debug : bool) (r : Result A) : Z :=
  match r with
  | Return _ => 200
  | Raise e => status_code debug e
  end.

(** The element of the JSON array that shows Book [b] of store [s]. *)
Definition renders (s : Store) (b : Book.t) (j : BookJson) : Prop :=
  json_id j = Book.id b /\ json_title j = Book.title b /\
  json_isbn j = Book.isbn b /\
  exists a, a ∈ authors s /\ Author.id a = Book.author_id b /\
            json_author j = Author.name a.

(** The rendering of a row as a function: the object [book_json] returns,
    and a blank one where it raises. *)
Definition json_or_blank (s : Store) (b : Book.t) : BookJson :=
  match book_json s b with
  | Return j => j
  | Raise _ => {| json_id := 0; json_title := ""; json_isbn := None;
                  json_author := "" |}
  end.

(** Two rows, and two rendered objects, in the order a clause asks for. *)
Definition in_order (o : ordering) (x y : Book.t) : Prop :=
  ordering_leb o x y = true.

Definition title_nonincreasing (j1 j2 : BookJson) : Prop :=
  String.leb (json_title j2) (json_title j1) = true.

Definition title_nondecreasing (j1 j2 : BookJson) : Prop :=
  String.leb (json_title j1) (json_title j2) = true.

(** The number of the last page of [total] rows, [per_page] to a page. *)
Definition page_count (total per_page : Z) : Z :=
  if total =? 0 then 0 else ceil_div total per_page.

(** The author_id a request writes into a Book row, if it writes one. *)
Definition written_author_id (int : string -> option Z) (r : Request)
  : option Z :=
  match r with
  | PostAddBook form | PostUpdateBook _ form =>
      match form !! "author_id" with
      | Some text => int text
      | None => None
      end
  | PostApiAddBook data =>
      match data_author_id data with
      | Some (Some a) => Some a
      | _ => None
      end
  | _ => None
  end.

(** An instance of [int] for the examples: ASCII decimal literals with an
    optional minus sign, on which Python's int agrees. *)
Fixpoint digits (acc : Z) (text : string) : option Z :=
  match text with
  | EmptyString => Some acc
  | String c r =>
      let n := Z.of_N (Ascii.N_of_ascii c) in
      if (48 <=? n) && (n <=? 57) then digits (10 * acc + (n - 48)) r
      else None
  end.

Definition decimal (text : string) : option Z :=
  match text with
  | EmptyString => None
  | String "-"%char EmptyString => None
  | String "-"%char r => Z.opp <$> digits 0 r
  | _ => digits 0 text
  end.

(** An instance of [inherited] for the examples: the Query object that
    db.Model puts on every model, and the backref. *)
Definition some_inherited (name : string) : option Exn :=
  if decide (name = "query") then Some AttributeError
  else if decide (name = "author") then Some NotImplementedError
  else None.

(** The query string ?page=k&per_page=2, for k = 1 and k = 2. *)
Definition page_request (k : Z) : gmap string string :=
  {[ "page" := if k =? 1 then "1" else "2"; "per_page" := "2" ]}.

(** Sample forms and query strings. *)
Definition carroll_form : gmap string string := {[ "name" := "Carroll" ]}.

Definition jane_form : gmap string string := {[ "name" := "Jane Austen" ]}.

Definition aleph_form : gmap string string :=
  {[ "title" := "El Aleph"; "isbn" := "222"; "author_id" := "1" ]}.

Definition aleph_form_without_isbn : gmap string string :=
  {[ "title" := "El Aleph"; "author_id" := "1" ]}.

Definition desc_request : gmap string string := {[ "order" := "desc" ]}.

Definition rating_request : gmap string string := {[ "sort" := "rating" ]}.

Definition page_three : gmap string string :=
  {[ "page" := "3"; "per_page" := "2" ]}.

Definition library : Store :=
  {| authors := [ Author.mk 1 "Austen" (Some "novelist") (Some "Bath");
                  Author.mk 2 "Borges" None (Some "Buenos Aires") ];
     books := [ Book.mk 1 "Persuasion" (Some "111") 1;
                Book.mk 2 "Ficciones" None 2;
                Book.mk 3 "Emma" (Some "333") 1 ] |}.

(** Orders of two rendered objects by id and by isbn (null first). *)
Definition id_nondecreasing (j1 j2 : BookJson) : Prop :=
  json_id j1 <= json_id j2.

Definition id_nonincreasing (j1 j2 : BookJson) : Prop :=
  json_id j2 <= json_id j1.

Definition isbn_nulls_first (j1 j2 : BookJson) : Prop :=
  match json_isbn j1, json_isbn j2 with
  | None, _ => True
  | Some _, None => False
  | Some a, Some b => String.leb a b = true
  end.

(** The rows of a table come in strictly increasing primary key. *)
Definition rowid_order (s : Store) : Prop :=
  StronglySorted Z.lt (map Author.id (authors s)) /\
  StronglySorted Z.lt (map Book.id (books s)).

(** More sample requests. *)
Definition borges_form : gmap string string :=
  {[ "name" := "J. L. Borges"; "city" := "Geneva" ]}.

Definition sort_by_id : gmap string string := {[ "sort" := "id" ]}.

Definition sort_by_id_desc : gmap string string :=
  {[ "sort" := "id"; "order" := "desc" ]}.

Definition sort_by_isbn : gmap string string := {[ "sort" := "isbn" ]}.

Definition page_zero : gmap string string := {[ "page" := "0" ]}.

Definition page_text : gmap string string :=
  {[ "page" := "two"; "per_page" := "2" ]}.

Definition edit_first : gmap string string :=
  {[ "edit_author" := "1"; "edit_book" := "" ]}.

Definition dangling_form : gmap string string :=
  {[ "title" := "El Aleph"; "isbn" := ""; "author_id" := "9" ]}.

Definition text_author_form : gmap string string :=
  {[ "title" := "El Aleph"; "isbn" := "222"; "author_id" := "Borges" ]}.

(** The store after a first Author and a first Book of his. *)
Definition first_store : Store :=
  serve decimal (serve decimal empty_store (PostAddAuthor carroll_form))
        (PostAddBook aleph_form).

(** Requests with a number one above the largest signed 64-bit integer. *)
Definition huge_author_form : gmap string string :=
  {[ "title" := "El Aleph"; "isbn" := "222";
     "author_id" := "9223372036854775808" ]}.

Definition per_page_huge : gmap string string :=
  {[ "per_page" := "9223372036854775808" ]}.

Definition page_huge : gmap string string :=
  {[ "page" := "9223372036854775808"; "per_page" := "2" ]}.

(** The store after one POST /api/add-book that names an Author who does
    not exist. *)
Definition orphan_data : BookData :=
  {| data_title := Some (Some "Orphan"); data_isbn := Some None;
     data_author_id := Some (Some 7) |}.

Definition orphan_store : Store :=
  serve decimal empty_store (PostApiAddBook orphan_data).

(** The store after two Authors and three Books. *)
Definition emma_form : gmap string string :=
  {[ "title" := "Emma"; "isbn" := "333"; "author_id" := "2" ]}.

Definition labyrinths_data : BookData :=
  {| data_title := Some (Some "Labyrinths"); data_isbn := Some None;
     data_author_id := Some (Some 1) |}.

Definition busy_store : Store :=
  serve decimal
    (serve decimal (serve decimal first_store (PostAddAuthor jane_form))
           (PostAddBook emma_form))
    (PostApiAddBook labyrinths_data).

(** The array GET /api/books answers with on that store. *)
Definition busy_array : list BookJson :=
  [ {| json_id := 1; json_title := "El Aleph"; json_isbn := Some "222";
       json_author := "Carroll" |};
    {| json_id := 2; json_title := "Emma"; json_isbn := Some "333";
       json_author := "Jane Austen" |};
    {| json_id := 3; json_title := "Labyrinths"; json_isbn := None;
       json_author := "Carroll" |} ].

(** * Verification *)

(** ** Primary-key lookups *)

Lemma Author_row_Some s i a :
  Author_row s i = Some a -> a ∈ authors s /\ Author.id a = i.
Proof.
  unfold Author_row. intros H.
  apply find_some in H as [Hin Hid].
  apply bool_decide_eq_true in Hid.
  split; [by apply list_elem_of_In | done].
Qed.

Lemma Author_row_None s i :
  Author_row s i = None -> ~ live s i.
Proof.
  unfold Author_row. intros H [a [Hin Hid]].
  apply list_elem_of_In in Hin.
  pose proof (find_none _ _ H a Hin) as Hf. simpl in Hf.
  apply bool_decide_eq_false in Hf. done.
Qed.

Lemma live_Author_row s i :
  live s i -> exists a, Author_row s i = Some a.
Proof.
  intros Hl. destruct (Author_row s i) as [a|] eqn:E; [by exists a|].
  by apply Author_row_None in E.
Qed.

Lemma Book_row_Some s i b :
  Book_row s i = Some b -> b ∈ books s /\ Book.id b = i.
Proof.
  unfold Book_row. intros H.
  apply find_some in H as [Hin Hid].
  apply bool_decide_eq_true in Hid.
  split; [by apply list_elem_of_In | done].
Qed.

Lemma Book_row_None s i b :
  Book_row s i = None -> b ∈ books s -> Book.id b <> i.
Proof.
  unfold Book_row. intros H Hin.
  apply list_elem_of_In in Hin.
  pose proof (find_none _ _ H b Hin) as Hf. simpl in Hf.
  by apply bool_decide_eq_false in Hf.
Qed.

Lemma in_int64_spec n :
  in_int64 n = true <-> -9223372036854775808 <= n <= 9223372036854775807.
Proof. unfold in_int64, int64_min, int64_max. lia. Qed.

(** A key that fits is handed to the SELECT; one that does not raises. *)
Lemma bind_integer_fits n : in_int64 n = true -> bind_integer n = Return n.
Proof. unfold bind_integer. by intros ->. Qed.

Lemma bind_integer_overflow n :
  in_int64 n = false -> bind_integer n = Raise OverflowError.
Proof. unfold bind_integer. by intros ->. Qed.

Lemma Author_query_get_Return s i o :
  Author_query_get s i = Return o <-> in_int64 i = true /\ Author_row s i = o.
Proof.
  unfold Author_query_get, bind_integer.
  destruct (in_int64 i); simpl; split; try done.
  - by intros [= <-].
  - by intros [_ <-].
  - by intros [? _].
Qed.

Lemma Book_query_get_Return s i o :
  Book_query_get s i = Return o <-> in_int64 i = true /\ Book_row s i = o.
Proof.
  unfold Book_query_get, bind_integer.
  destruct (in_int64 i); simpl; split; try done.
  - by intros [= <-].
  - by intros [_ <-].
  - by intros [? _].
Qed.

Lemma Author_query_get_overflow s i :
  in_int64 i = false -> Author_query_get s i = Raise OverflowError.
Proof. unfold Author_query_get. intros H. by rewrite bind_integer_overflow. Qed.

Lemma Book_query_get_overflow s i :
  in_int64 i = false -> Book_query_get s i = Raise OverflowError.
Proof. unfold Book_query_get. intros H. by rewrite bind_integer_overflow. Qed.

(** The call answers as the table does wherever the key fits. *)
Lemma Author_query_get_row s s' k :
  Author_row s' k = Author_row s k ->
  Author_query_get s' k = Author_query_get s k.
Proof.
  unfold Author_query_get, bind_integer. intros Hrow.
  destruct (in_int64 k); simpl; [by rewrite Hrow|done].
Qed.

Lemma Book_query_get_row s s' k :
  Book_row s' k = Book_row s k ->
  Book_query_get s' k = Book_query_get s k.
Proof.
  unfold Book_query_get, bind_integer. intros Hrow.
  destruct (in_int64 k); simpl; [by rewrite Hrow|done].
Qed.

(** Case analysis on whether a statement parameter fits. *)
Ltac bind_cases n :=
  unfold session_add_book, session_update_book, bind_integer;
  simpl; destruct (in_int64 n) eqn:?; simpl; [|try done].

Ltac lookup_cases i :=
  unfold get_or_404, Author_query_get, Book_query_get;
  bind_cases i.

(** After an UPDATE by primary key, a lookup of that key finds the new row. *)
Lemma find_author_updated (l : list Author.t) a a' :
  List.find (fun x => bool_decide (Author.id x = Author.id a')) l = Some a ->
  List.find (fun x => bool_decide (Author.id x = Author.id a'))
    (map (fun x => if bool_decide (Author.id x = Author.id a') then a' else x) l)
  = Some a'.
Proof.
  induction l as [|x l IH]; simpl; [done|].
  destruct (bool_decide (Author.id x = Author.id a')) eqn:E.
  - intros _. by rewrite bool_decide_eq_true_2.
  - rewrite E. apply IH.
Qed.

Lemma find_book_updated (l : list Book.t) b b' :
  List.find (fun x => bool_decide (Book.id x = Book.id b')) l = Some b ->
  List.find (fun x => bool_decide (Book.id x = Book.id b'))
    (map (fun x => if bool_decide (Book.id x = Book.id b') then b' else x) l)
  = Some b'.
Proof.
  induction l as [|x l IH]; simpl; [done|].
  destruct (bool_decide (Book.id x = Book.id b')) eqn:E.
  - intros _. by rewrite bool_decide_eq_true_2.
  - rewrite E. apply IH.
Qed.

Section Contracts.

Variable int : string -> option Z.

(** ** Form-encoded writes *)

(** C9.  POST /add-book raises a missing-key error for every form without
    an isbn field, although the isbn column is nullable (the key reported
    is title when title is absent too, isbn otherwise).  POST /add-author
    with a name succeeds whether or not bio and city are present, and
    stores NULL for each of the two that is absent. *)
Theorem add_book_needs_isbn_add_author_needs_neither
    (s : Store) (book_form author_form : gmap string string) (n : string) :
  book_form !! "isbn" = None ->
  author_form !! "name" = Some n ->
  (exists key, add_book int s book_form = Raise (BadRequestKeyError key) /\
               (key = "title" \/ key = "isbn") /\ book_form !! key = None) /\
  (exists a, add_author s author_form
             = Return ({| authors := authors s ++ [a]; books := books s |},
                       redirect_index "Author added successfully!") /\
             Author.name a = n /\
             Author.bio a = author_form !! "bio" /\
             Author.city a = author_form !! "city" /\
             (author_form !! "bio" = None -> Author.bio a = None) /\
             (author_form !! "city" = None -> Author.city a = None)).
Proof.
  intros Hisbn Hname. split.
  - unfold add_book, form_getitem.
    destruct (book_form !! "title") as [t|] eqn:Ht; simpl.
    + rewrite Hisbn. simpl. exists "isbn". auto.
    + exists "title". auto.
  - unfold add_author, form_getitem. rewrite Hname. simpl.
    eexists. split; [reflexivity|]. simpl. auto.
Qed.

(** C10.  POST /update-author/{id} on an existing Author with a form that
    has a name succeeds; the row then holds the form's name, and NULL for
    bio and for city when the form omits them, whatever they were. *)
Theorem update_author_overwrites_optional_fields
    (s : Store) (i : Z) (a : Author.t) (form : gmap string string) (n : string) :
  Author_query_get s i = Return (Some a) ->
  form !! "name" = Some n ->
  exists s' a',
    update_author s i form
      = Return (s', redirect_index "Author updated successfully!") /\
    Author_query_get s' i = Return (Some a') /\
    Author.id a' = i /\ Author.name a' = n /\
    Author.bio a' = form !! "bio" /\ Author.city a' = form !! "city" /\
    (form !! "bio" = None -> Author.bio a' = None) /\
    (form !! "city" = None -> Author.city a' = None).
Proof.
  intros Hget Hname.
  pose proof Hget as [Hfits Hrow]%Author_query_get_Return.
  pose proof (Author_row_Some _ _ _ Hrow) as [_ Hid].
  unfold update_author, form_getitem. rewrite Hget, Hname. simpl.
  eexists. exists (Author.mk (Author.id a) n (form !! "bio") (form !! "city")).
  split; [reflexivity|]. split.
  - apply Author_query_get_Return. split; [done|].
    unfold Author_row, session_update_author. simpl.
    unfold Author_row in Hrow. subst i.
    exact (find_author_updated _ a
             (Author.mk (Author.id a) n (form !! "bio") (form !! "city")) Hrow).
  - simpl. repeat split; auto.
Qed.

(** C7 (amended).  POST /update-book/{id}: NotFound when the id fits a
    signed 64-bit integer and no Book has it; when the Book exists and
    the form carries title, isbn and an author_id that int() accepts and
    that fits a signed 64-bit integer, the row holds exactly the three
    supplied values afterwards; when the Book exists and the form lacks
    one of the three fields, the request raises the missing-key error
    for the first absent one and commits nothing. *)
Theorem update_book_contract (s : Store) (i : Z) (form : gmap string string) :
  (Book_query_get s i = Return None ->
   update_book int s i form = Raise NotFound) /\
  (forall b t isbn text n,
      Book_query_get s i = Return (Some b) ->
      form !! "title" = Some t -> form !! "isbn" = Some isbn ->
      form !! "author_id" = Some text -> int text = Some n ->
      in_int64 n = true ->
      exists s',
        update_book int s i form
          = Return (s', redirect_index "Book updated successfully!") /\
        Book_query_get s' i = Return (Some (Book.mk i t (Some isbn) n))) /\
  (forall b,
      Book_query_get s i = Return (Some b) ->
      form !! "title" = None \/ form !! "isbn" = None \/
        form !! "author_id" = None ->
      exists key,
        update_book int s i form = Raise (BadRequestKeyError key) /\
        form !! key = None /\
        store_after s (update_book int s i form) = s).
Proof.
  split; [|split].
  - intros Hget. unfold update_book. by rewrite Hget.
  - intros b t isbn text n Hget Ht Hi Ha Hn Hfits.
    pose proof Hget as [Hi64 Hrow]%Book_query_get_Return.
    pose proof (Book_row_Some _ _ _ Hrow) as [_ Hid].
    unfold update_book, form_getitem, int_call, session_update_book.
    rewrite Hget, Ht, Hi, Ha. simpl. rewrite Hn. simpl.
    rewrite (bind_integer_fits _ Hfits). simpl.
    eexists. split; [reflexivity|].
    apply Book_query_get_Return. split; [done|].
    unfold Book_row. simpl.
    unfold Book_row in Hrow. subst i.
    exact (find_book_updated _ b (Book.mk (Book.id b) t (Some isbn) n) Hrow).
  - intros b Hget Hmiss.
    unfold update_book, form_getitem. rewrite Hget. simpl.
    destruct (form !! "title") as [t|] eqn:Ht; simpl;
      [|exists "title"; by rewrite Ht].
    destruct (form !! "isbn") as [isbn|] eqn:Hi; simpl;
      [|exists "isbn"; by rewrite Hi].
    destruct (form !! "author_id") as [text|] eqn:Ha; simpl;
      [|exists "author_id"; by rewrite Ha].
    destruct Hmiss as [?|[?|?]]; discriminate.
Qed.

(** ** JSON writes *)


(** What the INSERT refuses: an author_id outside the 64-bit range is an
    OverflowError whatever the title is; otherwise a body whose title or
    author_id is JSON null violates NOT NULL. *)
Lemma api_add_book_refused (s : Store) (data : BookData)
    (t i : option string) (a : option Z) :
  data_title data = Some t -> data_isbn data = Some i ->
  data_author_id data = Some a ->
  match a with
  | Some n =>
      if in_int64 n
      then t = None -> api_add_book s data = Raise IntegrityError
      else api_add_book s data = Raise OverflowError
  | None => api_add_book s data = Raise IntegrityError
  end.
Proof.
  intros Ht Hi Ha. unfold api_add_book, session_add_book, bind_integer.
  rewrite Ht, Hi, Ha. simpl. destruct a as [n|]; [|done].
  destruct (in_int64 n); simpl; [|done]. by intros ->.
Qed.

End Contracts.

(** ** Comprehensions and rendering *)

Lemma comprehension_Return {A B : Type} (f : A -> Result B) (l : list A) :
  Forall (fun x => exists y, f x = Return y) l ->
  exists ys, comprehension f l = Return ys.
Proof.
  induction 1 as [|x l [y Hy] _ [ys IH]]; simpl; [by eexists|].
  rewrite Hy. simpl. rewrite IH. simpl. by eexists.
Qed.

Lemma comprehension_Forall2 {A B : Type} (f : A -> Result B) (l : list A) ys :
  comprehension f l = Return ys -> Forall2 (fun x y => f x = Return y) l ys.
Proof.
  revert ys. induction l as [|x l IH]; simpl; intros ys H.
  - injection H as <-. constructor.
  - destruct (f x) as [y|e] eqn:Hx; simpl in H; [|discriminate].
    destruct (comprehension f l) as [zs|e] eqn:Hl; simpl in H; [|discriminate].
    injection H as <-. constructor; auto.
Qed.

Lemma comprehension_app {A B : Type} (f : A -> Result B) (l1 l2 : list A) ys1 ys2 :
  comprehension f l1 = Return ys1 -> comprehension f l2 = Return ys2 ->
  comprehension f (l1 ++ l2) = Return (ys1 ++ ys2).
Proof.
  revert ys1. induction l1 as [|x l1 IH]; simpl; intros ys1 H1 H2.
  - injection H1 as <-. done.
  - destruct (f x) as [y|e]; simpl in *; [|discriminate].
    destruct (comprehension f l1) as [zs|e]; simpl in *; [|discriminate].
    injection H1 as <-. by rewrite (IH zs eq_refl H2).
Qed.

Lemma book_json_renders s b j : book_json s b = Return j -> renders s b j.
Proof.
  unfold book_json, Book_author.
  destruct (Author_row s (Book.author_id b)) as [a|] eqn:E; [|done].
  intros [= <-]. apply Author_row_Some in E as [Hin Hid].
  repeat split; simpl; eauto.
Qed.

Lemma book_json_live s b :
  live s (Book.author_id b) -> exists j, book_json s b = Return j.
Proof.
  intros [a Ha]%live_Author_row. unfold book_json, Book_author.
  rewrite Ha. by eexists.
Qed.

Lemma comprehension_renders s l arr :
  comprehension (book_json s) l = Return arr -> Forall2 (renders s) l arr.
Proof.
  intros H%comprehension_Forall2.
  eapply Forall2_impl; [exact H|]. intros b j. apply book_json_renders.
Qed.

(** Every element of a rendered array carries the id of a rendered row. *)
Lemma comprehension_ids s l arr j :
  comprehension (book_json s) l = Return arr -> j ∈ arr ->
  exists b, b ∈ l /\ json_id j = Book.id b.
Proof.
  intros H%comprehension_renders Hj.
  induction H as [|b j' l arr Hr _ IH].
  - by apply elem_of_nil in Hj.
  - apply elem_of_cons in Hj as [->|Hj].
    + exists b. split; [left|apply Hr].
    + destruct (IH Hj) as [b' [? ?]]. exists b'. split; [by right|done].
Qed.

(** ** Fresh primary keys *)

Lemma max_rowid_bound (ids : list Z) i m :
  max_rowid ids = Some m -> i ∈ ids -> i <= m.
Proof.
  revert m. induction ids as [|x ids IH]; intros m Hm Hi.
  - by apply elem_of_nil in Hi.
  - simpl in Hm. apply elem_of_cons in Hi.
    destruct (max_rowid ids) as [m'|] eqn:E.
    + injection Hm as <-. destruct Hi as [->|Hi]; [lia|].
      specialize (IH m' eq_refl Hi). lia.
    + injection Hm as <-. destruct Hi as [->|Hi]; [lia|].
      destruct ids; [by apply elem_of_nil in Hi|discriminate].
Qed.

Lemma next_rowid_fresh (ids : list Z) i : i ∈ ids -> i < next_rowid ids.
Proof.
  intros Hi. unfold next_rowid.
  destruct (max_rowid ids) as [m|] eqn:E.
  - pose proof (max_rowid_bound _ _ _ E Hi). lia.
  - destruct ids; [by apply elem_of_nil in Hi|discriminate].
Qed.

(** A lookup by primary key in a table extended by one row. *)
Lemma find_author_app_old (l : list Author.t) new i a :
  List.find (fun x => bool_decide (Author.id x = i)) l = Some a ->
  List.find (fun x => bool_decide (Author.id x = i)) (l ++ [new]) = Some a.
Proof.
  induction l as [|x l IH]; simpl; [done|].
  destruct (bool_decide (Author.id x = i)); auto.
Qed.

Lemma find_author_app_new (l : list Author.t) new :
  (forall x, x ∈ l -> Author.id x <> Author.id new) ->
  List.find (fun x => bool_decide (Author.id x = Author.id new)) (l ++ [new])
  = Some new.
Proof.
  induction l as [|x l IH]; simpl; intros Hne.
  - by rewrite bool_decide_eq_true_2.
  - rewrite bool_decide_eq_false_2 by (apply Hne; left).
    apply IH. intros y Hy. apply Hne. by right.
Qed.

(** ** What the read endpoints can show *)

Lemma insert_row_Permutation leb x (l : list Book.t) :
  insert_row leb x l ≡ₚ x :: l.
Proof.
  induction l as [|y l IH]; simpl; [done|].
  destruct (leb x y); [done|]. rewrite IH. apply perm_swap.
Qed.

Lemma order_by_Permutation o (rows : list Book.t) : order_by o rows ≡ₚ rows.
Proof.
  unfold order_by. induction rows as [|x l IH]; simpl; [done|].
  by rewrite insert_row_Permutation, IH.
Qed.

Lemma paginate_Return_inv rows k p m pg :
  paginate rows k p m = Return pg ->
  exists p', prepare_page_args k p m = Return (k, p') /\
    in_int64 p' = true /\ in_int64 ((k - 1) * p') = true /\
    page pg = k /\ per_page pg = p' /\ total pg = Z.of_nat (length rows) /\
    items pg = take (Z.to_nat p') (drop (Z.to_nat ((k - 1) * p')) rows).
Proof.
  unfold paginate.
  destruct (prepare_page_args k p m) as [[k' p']|e] eqn:E; simpl; [|done].
  assert (k' = k) as ->.
  { unfold prepare_page_args in E.
    repeat case_match; simplify_eq; done. }
  unfold bind_integer.
  destruct (in_int64 p') eqn:Hp; simpl; [|done].
  destruct (in_int64 ((k - 1) * p')) eqn:Ho; simpl; [|done].
  case_match; [done|]. intros [= <-]. exists p'. simpl. auto 8.
Qed.

Lemma paginate_items_stored rows k p m pg x :
  paginate rows k p m = Return pg -> x ∈ items pg -> x ∈ rows.
Proof.
  intros (p' & _ & _ & _ & _ & _ & _ & ->)%paginate_Return_inv Hx.
  by apply subseteq_take, subseteq_drop in Hx.
Qed.

Section Reads.

Variable int : string -> option Z.
Variable inherited : string -> option Exn.

Lemma api_books_ids s arr j :
  api_books s = Return arr -> j ∈ arr ->
  exists b, b ∈ books s /\ json_id j = Book.id b.
Proof. apply comprehension_ids. Qed.

Lemma api_books_paginated_ids s args pg j :
  api_books_paginated int s args = Return pg -> j ∈ json_books pg ->
  exists b, b ∈ books s /\ json_id j = Book.id b.
Proof.
  unfold api_books_paginated.
  destruct (paginate _ _ _ _) as [pn|e] eqn:Hp; simpl; [|done].
  destruct (comprehension _ _) as [arr|e] eqn:Hc; simpl; [|done].
  intros [= <-] Hj. simpl in Hj.
  destruct (comprehension_ids _ _ _ _ Hc Hj) as [b [Hb Hid]].
  exists b. split; [|done]. eapply paginate_items_stored; eauto.
Qed.

Lemma api_books_sorting_ids s args arr j :
  api_books_sorting inherited s args = Return arr -> j ∈ arr ->
  exists b, b ∈ books s /\ json_id j = Book.id b.
Proof.
  unfold api_books_sorting.
  match goal with |- context [bind ?c _] => destruct c as [o|e] end;
    simpl; [|done].
  intros Hc Hj. destruct (comprehension_ids _ _ _ _ Hc Hj) as [b [Hb Hid]].
  exists b. split; [|done]. by rewrite order_by_Permutation in Hb.
Qed.

(** C1.  Deleting an existing Author by id succeeds and leaves a store
    with no Author of that id and no Book of that author_id; each Book
    that had that author_id is gone, and its id is answered by no read:
    not by Book.query.get (for that id or any other key, as a row of the
    table and as the answer of the call), not by Book.query.all (the two queries the index page reads Books through),
    and not in the arrays of /api/books, /api/books-with-pagination and
    /api/books-with-sorting. *)
Theorem delete_author_cascades (s : Store) (i : Z) (a : Author.t) :
  Author_query_get s i = Return (Some a) ->
  exists s',
    delete_author s i
      = Return (s', redirect_index "Author deleted successfully!") /\
    Author_query_get s' i = Return None /\
    Author_row s' i = None /\
    ~ live s' i /\
    (forall x, x ∈ books s' -> Book.author_id x <> i) /\
    forall b, b ∈ books s -> Book.author_id b = i ->
      (b ∉ books s') /\
      Book_row s' (Book.id b) = None /\
      (forall key x, Book_row s' key = Some x -> Book.id x <> Book.id b) /\
      (forall key x, Book_query_get s' key = Return (Some x) ->
                     Book.id x <> Book.id b) /\
      (forall x, x ∈ Book_query_all s' -> Book.id x <> Book.id b) /\
      (forall arr j, api_books s' = Return arr -> j ∈ arr ->
                     json_id j <> Book.id b) /\
      (forall args pg j, api_books_paginated int s' args = Return pg ->
                         j ∈ json_books pg -> json_id j <> Book.id b) /\
      (forall args arr j, api_books_sorting inherited s' args = Return arr ->
                          j ∈ arr -> json_id j <> Book.id b).
Proof.
  intros Hget.
  pose proof Hget as [Hfits Hrow]%Author_query_get_Return.
  pose proof (Author_row_Some _ _ _ Hrow) as [Ha Hid].
  unfold delete_author. rewrite Hget. simpl.
  set (s' := session_delete_author s a).
  exists s'. split; [done|].
  assert (Hgone : forall x, x ∈ authors s' -> Author.id x <> i).
  { intros x Hx. unfold s', session_delete_author in Hx. simpl in Hx.
    apply list_elem_of_filter in Hx as [Hx _]. congruence. }
  assert (Hnone : Author_row s' i = None).
  { destruct (Author_row s' i) as [x|] eqn:E; [|done].
    apply Author_row_Some in E as [Hx Hxi]. by apply Hgone in Hx. }
  assert (Howned : forall x b, x ∈ books s' -> b ∈ books s ->
                     Book.author_id b = i -> Book.id x <> Book.id b).
  { intros x b Hx Hb Hbi Heq. unfold s', session_delete_author in Hx.
    simpl in Hx. apply list_elem_of_filter in Hx as [Hx _]. apply Hx.
    rewrite Heq. apply list_elem_of_In, in_map, list_elem_of_In.
    unfold Author_books. apply list_elem_of_filter. split; [congruence|done]. }
  assert (Hsub : forall x, x ∈ books s' -> x ∈ books s).
  { intros x Hx. unfold s', session_delete_author in Hx. simpl in Hx.
    by apply list_elem_of_filter in Hx as [_ Hx]. }
  split; [by apply Author_query_get_Return|].
  split; [done|]. split; [intros [x [Hx Hxi]]; by apply Hgone in Hx|].
  split.
  { intros x Hx Hxi. by apply (Howned x x Hx (Hsub x Hx) Hxi). }
  intros b Hb Hbi.
  assert (Hrows : forall key x, Book_row s' key = Some x ->
                                Book.id x <> Book.id b).
  { intros key x [Hx _]%Book_row_Some. by apply Howned. }
  split; [|split; [|split; [|split; [|split; [|split; [|split]]]]]].
  - intros Hb'. by apply (Howned b b Hb' Hb Hbi).
  - destruct (Book_row s' (Book.id b)) as [x|] eqn:E; [|done].
    apply Book_row_Some in E as [Hx Hxi]. by apply (Howned x b) in Hx.
  - exact Hrows.
  - intros key x [_ Hx]%Book_query_get_Return. by apply Hrows in Hx.
  - intros x Hx. by apply Howned.
  - intros arr j Hr Hj. destruct (api_books_ids _ _ _ Hr Hj) as [x [Hx ->]].
    by apply Howned.
  - intros args pg j Hr Hj.
    destruct (api_books_paginated_ids _ _ _ _ Hr Hj) as [x [Hx ->]].
    by apply Howned.
  - intros args arr j Hr Hj.
    destruct (api_books_sorting_ids _ _ _ _ Hr Hj) as [x [Hx ->]].
    by apply Howned.
Qed.

(** X24.  In a store where every Book has its Author, GET /api/books
    answers 200 with one object per Book, in table order, holding the
    Book's id, title and isbn and the name of the Author whose id is the
    Book's author_id.  After POST /add-author with a name (in a table
    whose next rowid fits a signed 64-bit integer) and then
    POST /api/add-book with the new Author's id, the array contains the
    new Book's object with that name as author. *)
Theorem api_books_lists_every_book
    (debug : bool) (s : Store) (author_form : gmap string string)
    (n t : string) (i : option string) :
  referential_integrity s ->
  in_int64 (next_rowid (map Author.id (authors s))) = true ->
  author_form !! "name" = Some n ->
  (exists arr, api_books s = Return arr /\
               api_status debug (api_books s) = 200 /\
               Forall2 (renders s) (books s) arr) /\
  (exists s1 new s2 arr,
      add_author s author_form
        = Return (s1, redirect_index "Author added successfully!") /\
      authors s1 = authors s ++ [new] /\ Author.name new = n /\
      api_add_book s1 {| data_title := Some (Some t); data_isbn := Some i;
                         data_author_id := Some (Some (Author.id new)) |}
        = Return (s2, {| success := true |}) /\
      api_books s2 = Return arr /\ api_status debug (api_books s2) = 200 /\
      {| json_id := next_rowid (map Book.id (books s)); json_title := t;
         json_isbn := i; json_author := n |} ∈ arr).
Proof.
  intros Hint Hfits Hname. split.
  - destruct (comprehension_Return (book_json s) (books s)) as [arr Harr].
    { eapply Forall_impl; [exact Hint|]. intros b. apply book_json_live. }
    exists arr. unfold api_books, Book_query_all. rewrite Harr.
    split; [done|]. split; [done|]. by apply comprehension_renders.
  - unfold add_author, form_getitem. rewrite Hname. simpl.
    set (new := Author.mk (next_rowid (map Author.id (authors s))) n
                          (author_form !! "bio") (author_form !! "city")).
    set (s1 := session_add_author s n (author_form !! "bio")
                                  (author_form !! "city")).
    set (nb := Book.mk (next_rowid (map Book.id (books s))) t i (Author.id new)).
    set (s2 := {| authors := authors s ++ [new]; books := books s ++ [nb] |}).
    assert (Hold : exists ys, comprehension (book_json s2) (books s) = Return ys).
    { apply comprehension_Return. eapply Forall_impl; [exact Hint|].
      intros b [a Ha]%live_Author_row.
      unfold book_json, Book_author, Author_row. simpl.
      rewrite (find_author_app_old _ new _ a Ha). by eexists. }
    destruct Hold as [ys Hys].
    assert (Hnew : book_json s2 nb
                   = Return {| json_id := Book.id nb; json_title := t;
                               json_isbn := i; json_author := n |}).
    { unfold book_json, Book_author, Author_row.
      change (authors s2) with (authors s ++ [new]).
      change (Book.author_id nb) with (Author.id new).
      rewrite find_author_app_new; [done|].
      intros x Hx. simpl. apply Z.lt_neq, next_rowid_fresh.
      by apply list_elem_of_In, in_map, list_elem_of_In. }
    exists s1, new, s2. eexists.
    split; [done|]. split; [done|]. split; [done|]. split.
    { unfold api_add_book, session_add_book. simpl.
      by rewrite (bind_integer_fits _ Hfits). }
    assert (Hall : api_books s2
                   = Return (ys ++ [{| json_id := Book.id nb; json_title := t;
                                       json_isbn := i; json_author := n |}])).
    { unfold api_books, Book_query_all. simpl.
      apply comprehension_app; [done|]. simpl. by rewrite Hnew. }
    rewrite Hall. split; [done|]. split; [done|].
    apply elem_of_app. right. by apply list_elem_of_singleton.
Qed.

(** C5 (what the code does).  POST /api/add-book inserts the Book for
    every author_id that fits a signed 64-bit integer, with no look at
    the authors table (and raises OverflowError for one that does not
    fit).  On the empty
    store a body with author_id 7 is answered {"success": true}; the
    store this request leaves is reachable and holds a Book without
    Author, and GET /api/books raises AttributeError on it (status 500). *)
Theorem api_add_book_accepts_dangling_author_id (debug : bool) :
  (forall s t i a,
      api_add_book s {| data_title := Some (Some t); data_isbn := Some i;
                        data_author_id := Some (Some a) |}
      = if in_int64 a
        then Return ({| authors := authors s;
                        books := books s ++
                          [Book.mk (next_rowid (map Book.id (books s))) t i a] |},
                     {| success := true |})
        else Raise OverflowError) /\
  (exists s',
      api_add_book empty_store
        {| data_title := Some (Some "Orphan"); data_isbn := Some None;
           data_author_id := Some (Some 7) |}
      = Return (s', {| success := true |}) /\
      reachable int s' /\
      ~ live empty_store 7 /\
      ~ referential_integrity s' /\
      api_books s' = Raise AttributeError /\
      api_status debug (api_books s') = 500).
Proof.
  split.
  { intros s t i a. unfold api_add_book, session_add_book, bind_integer.
    simpl. by destruct (in_int64 a). }
  eexists. split; [reflexivity|].
  assert (Hdead : forall l, ~ live {| authors := []; books := l |} 7).
  { intros l [a [Ha _]]. simpl in Ha. by apply elem_of_nil in Ha. }
  split.
  { apply (reachable_served int empty_store
             (PostApiAddBook {| data_title := Some (Some "Orphan");
                                data_isbn := Some None;
                                data_author_id := Some (Some 7) |})).
    apply reachable_created. }
  split; [apply Hdead|]. split; [|done].
  intros H. unfold referential_integrity in H. simpl in H.
  apply Forall_inv in H. by apply Hdead in H.
Qed.

End Reads.

(** ** Pagination *)

Lemma ceil_div_spec a b :
  0 < b -> (ceil_div a b - 1) * b < a <= ceil_div a b * b.
Proof.
  intros Hb. unfold ceil_div.
  pose proof (Z.div_mod (- a) b ltac:(lia)) as Hdm.
  pose proof (Z.mod_pos_bound (- a) b Hb) as Hr.
  nia.
Qed.

(** [page_count] is the ceiling of total / per_page. *)
Lemma page_count_spec n p :
  0 <= n -> 0 < p -> (page_count n p - 1) * p < n <= page_count n p * p.
Proof.
  intros Hn Hp. unfold page_count.
  destruct (Z.eqb_spec n 0) as [->|Hne]; [lia|]. by apply ceil_div_spec.
Qed.

Lemma page_count_nonneg n p : 0 <= n -> 0 < p -> 0 <= page_count n p.
Proof. intros Hn Hp. pose proof (page_count_spec n p Hn Hp). nia. Qed.

Lemma pages_page_count pg : pages pg = page_count (total pg) (per_page pg).
Proof. done. Qed.

(** The page slice is empty exactly from the offset [length rows] on. *)
Lemma slice_nil (rows : list Book.t) (off lim : nat) :
  (length rows <= off)%nat -> take lim (drop off rows) = [].
Proof. intros H. by rewrite drop_ge, take_nil. Qed.

Lemma slice_not_nil (rows : list Book.t) (off lim : nat) :
  (off < length rows)%nat -> (0 < lim)%nat -> take lim (drop off rows) <> [].
Proof.
  intros Ho Hl Hnil. apply (f_equal length) in Hnil.
  rewrite length_take, length_drop in Hnil. simpl in Hnil. lia.
Qed.

Lemma comprehension_map s (l : list Book.t) :
  Forall (fun b => live s (Book.author_id b)) l ->
  comprehension (book_json s) l = Return (map (json_or_blank s) l).
Proof.
  induction 1 as [|b l Hb _ IH]; simpl; [done|].
  unfold json_or_blank at 1.
  destruct (book_json_live _ _ Hb) as [j ->]. simpl. by rewrite IH.
Qed.

Lemma Forall_slice {A} (P : A -> Prop) (l : list A) off lim :
  Forall P l -> Forall P (take lim (drop off l)).
Proof. intros H. by apply Forall_take, Forall_drop. Qed.

Section Pagination.

Variable int : string -> option Z.

(** A request for a page in range: page 1, or a page up to the last. *)
Lemma page_served (s : Store) (args : gmap string string) (k p : Z) :
  referential_integrity s ->
  in_int64 (Z.of_nat (length (books s))) = true ->
  args_get_int int args "page" 1 = k ->
  args_get_int int args "per_page" 5 = p ->
  0 < p -> in_int64 p = true -> 1 <= k ->
  k = 1 \/ k <= page_count (Z.of_nat (length (books s))) p ->
  api_books_paginated int s args
  = Return {| json_total := Z.of_nat (length (books s));
              json_pages := page_count (Z.of_nat (length (books s))) p;
              json_books :=
                map (json_or_blank s)
                    (take (Z.to_nat p)
                          (drop (Z.to_nat ((k - 1) * p)) (books s))) |}.
Proof.
  intros Hint Hrows Hk Hp Hpos Hfits Hk1 Hrange.
  assert (Hoff : in_int64 ((k - 1) * p) = true).
  { apply in_int64_spec. apply in_int64_spec in Hrows.
    destruct Hrange as [->|Hle]; [lia|].
    pose proof (page_count_spec (Z.of_nat (length (books s))) p
                  ltac:(lia) Hpos) as Hc.
    nia. }
  unfold api_books_paginated, paginate, prepare_page_args, Book_query_all.
  rewrite Hk, Hp.
  destruct (Z.ltb_spec k 1) as [?|_]; [lia|].
  destruct (Z.ltb_spec p 1) as [?|_]; [lia|]. simpl.
  rewrite (bind_integer_fits _ Hfits). simpl.
  rewrite (bind_integer_fits _ Hoff). simpl.
  set (slice := take _ _).
  assert (bool_decide (slice = []) && negb (k =? 1) = false) as ->.
  { destruct (Z.eqb_spec k 1) as [->|Hne]; [apply andb_false_r|].
    rewrite bool_decide_eq_false_2; [done|].
    destruct Hrange as [?|Hle]; [done|].
    pose proof (page_count_spec (Z.of_nat (length (books s))) p
                  ltac:(lia) Hpos) as Hc.
    apply slice_not_nil; nia. }
  simpl. rewrite comprehension_map by (by apply Forall_slice). done.
Qed.

(** The arrays of pages 1 .. m, concatenated, are the first m * per_page
    rows of the table. *)
Lemma pages_concat (s : Store) (p : Z) (req : Z -> gmap string string) (m : nat) :
  referential_integrity s ->
  in_int64 (Z.of_nat (length (books s))) = true ->
  0 < p -> in_int64 p = true ->
  Z.of_nat m <= page_count (Z.of_nat (length (books s))) p ->
  (forall k, 1 <= k <= Z.of_nat m ->
     args_get_int int (req k) "page" 1 = k /\
     args_get_int int (req k) "per_page" 5 = p) ->
  exists pgs,
    Forall2 (fun k pg => api_books_paginated int s (req k) = Return pg)
            (seqZ 1 (Z.of_nat m)) pgs /\
    concat (map json_books pgs)
    = map (json_or_blank s) (take (m * Z.to_nat p) (books s)).
Proof.
  intros Hint Hrows Hpos Hfits. induction m as [|m IH]; intros Hm Hreq.
  - exists []. split; [constructor|done].
  - destruct IH as [pgs [Hpgs Hcat]]; [lia|intros k Hk; apply Hreq; lia|].
    destruct (Hreq (1 + Z.of_nat m) ltac:(lia)) as [Hk Hp].
    pose proof (page_served s _ _ _ Hint Hrows Hk Hp Hpos Hfits
                  ltac:(lia) ltac:(lia)) as Hpg.
    eexists (pgs ++ [_]). split.
    + rewrite seqZ_S. apply Forall2_app; [done|]. constructor; [exact Hpg|constructor].
    + rewrite map_app, concat_app, Hcat. simpl. rewrite app_nil_r.
      rewrite <- map_app. f_equal.
      replace (Z.to_nat ((1 + Z.of_nat m - 1) * p)) with (m * Z.to_nat p)%nat by nia.
      rewrite take_take_drop. f_equal. lia.
Qed.

(** C2 (amended).  With every Book owned by an Author, a row count that
    fits a signed 64-bit integer and a positive per_page p that fits one:
    an absent page reads as 1 and an absent per_page as 5; a request for
    page 1, or for a page up to the last one, answers with total = the
    number of Book rows, pages = the ceiling of total / p, and books =
    the rendering of rows (page - 1) * p up to page * p of the table; the
    books arrays of pages 1 .. pages, concatenated in order, are the
    array of GET /api/books, each row once. *)
Theorem api_books_paginated_contract
    (s : Store) (p : Z) (args : gmap string string)
    (req : Z -> gmap string string) :
  let n := Z.of_nat (length (books s)) in
  let k := args_get_int int args "page" 1 in
  referential_integrity s ->
  in_int64 n = true ->
  0 < p -> in_int64 p = true ->
  args_get_int int args "per_page" 5 = p ->
  (forall k, 1 <= k <= page_count n p ->
     args_get_int int (req k) "page" 1 = k /\
     args_get_int int (req k) "per_page" 5 = p) ->
  (args !! "page" = None -> k = 1) /\
  (args !! "per_page" = None -> p = 5) /\
  (page_count n p - 1) * p < n <= page_count n p * p /\
  (1 <= k -> k = 1 \/ k <= page_count n p ->
   exists arr,
     api_books_paginated int s args
     = Return {| json_total := n; json_pages := page_count n p;
                 json_books := arr |} /\
     Forall2 (renders s)
             (take (Z.to_nat p) (drop (Z.to_nat ((k - 1) * p)) (books s)))
             arr) /\
  exists pgs all,
    Forall2 (fun k pg => api_books_paginated int s (req k) = Return pg)
            (seqZ 1 (page_count n p)) pgs /\
    api_books s = Return all /\
    Forall2 (renders s) (books s) all /\
    concat (map json_books pgs) = all.
Proof.
  intros n k Hint Hrows Hpos Hfits Hp Hreq.
  pose proof (page_count_spec n p ltac:(lia) Hpos) as Hc.
  pose proof (page_count_nonneg n p ltac:(lia) Hpos) as Hc0.
  split; [|split; [|split; [|split]]].
  - intros Hnone. unfold k, args_get_int. by rewrite Hnone.
  - intros Hnone. unfold args_get_int in Hp. by rewrite Hnone in Hp.
  - done.
  - intros Hk1 Hrange. eexists. split.
    + by apply page_served.
    + apply comprehension_renders, comprehension_map. by apply Forall_slice.
  - destruct (pages_concat s p req (Z.to_nat (page_count n p))
                  Hint Hrows Hpos Hfits)
      as [pgs [Hpgs Hcat]]; [fold n; lia|intros j Hj; apply Hreq; lia|].
    rewrite Z2Nat.id in Hpgs by done.
    exists pgs, (map (json_or_blank s) (books s)).
    split; [done|]. split; [by apply comprehension_map|].
    split; [by apply comprehension_renders, comprehension_map|].
    rewrite Hcat. f_equal. apply take_ge. unfold n in *. nia.
Qed.

(** C8 (amended).  Whatever per_page is, a request for a page other than
    page 1 that lies beyond the last page is aborted with NotFound,
    provided that, when page and per_page are both at least 1, the limit
    per_page and the offset (page - 1) * per_page fit a signed 64-bit
    integer. *)
Theorem page_beyond_last_not_found
    (debug : bool) (s : Store) (args : gmap string string) :
  let k := args_get_int int args "page" 1 in
  let p := args_get_int int args "per_page" 5 in
  k <> 1 ->
  page_count (Z.of_nat (length (books s))) p < k ->
  (1 <= k -> 1 <= p ->
   in_int64 p = true /\ in_int64 ((k - 1) * p) = true) ->
  api_books_paginated int s args = Raise NotFound /\
  api_status debug (api_books_paginated int s args) = 404.
Proof.
  intros k p Hne Hbeyond Hbinds.
  assert (api_books_paginated int s args = Raise NotFound) as ->; [|done].
  unfold api_books_paginated, paginate, prepare_page_args, Book_query_all.
  fold k p.
  destruct (Z.ltb_spec k 1) as [?|Hk]; [done|].
  destruct (Z.ltb_spec p 1) as [?|Hp]; [done|]. simpl.
  destruct (Hbinds Hk Hp) as [Hfits Hoff].
  rewrite (bind_integer_fits _ Hfits). simpl.
  rewrite (bind_integer_fits _ Hoff). simpl.
  pose proof (page_count_spec (Z.of_nat (length (books s))) p
                ltac:(lia) ltac:(lia)) as Hc.
  rewrite slice_nil by nia.
  rewrite bool_decide_eq_true_2 by done.
  destruct (Z.eqb_spec k 1); [done|]. done.
Qed.

End Pagination.

(** ** Sorting *)

Lemma option_leb_total x y : option_leb x y = true \/ option_leb y x = true.
Proof.
  destruct x as [a|], y as [b|]; simpl; auto. apply String.leb_total.
Qed.

Lemma column_leb_total c x y :
  column_leb c x y = true \/ column_leb c y x = true.
Proof.
  destruct c; simpl.
  - destruct (Z.leb_spec (Book.id x) (Book.id y)); [by left|right].
    apply Z.leb_le. lia.
  - apply String.leb_total.
  - apply option_leb_total.
  - destruct (Z.leb_spec (Book.author_id x) (Book.author_id y)); [by left|right].
    apply Z.leb_le. lia.
Qed.

Lemma ordering_leb_total o x y :
  ordering_leb o x y = true \/ ordering_leb o y x = true.
Proof. destruct o; simpl; apply column_leb_total. Qed.

Lemma insert_row_HdRel o x y (l : list Book.t) :
  in_order o y x -> HdRel (in_order o) y l ->
  HdRel (in_order o) y (insert_row (ordering_leb o) x l).
Proof.
  intros Hyx Hl. destruct l as [|z l]; simpl; [by constructor|].
  destruct (ordering_leb o x z); constructor; [done|].
  by apply HdRel_inv in Hl.
Qed.

Lemma insert_row_Sorted o x (l : list Book.t) :
  Sorted (in_order o) l -> Sorted (in_order o) (insert_row (ordering_leb o) x l).
Proof.
  induction 1 as [|y l Hs IH Hhd]; simpl; [by repeat constructor|].
  destruct (ordering_leb o x y) eqn:E.
  - constructor; [by constructor|by constructor].
  - constructor; [done|]. apply insert_row_HdRel; [|done].
    unfold in_order. destruct (ordering_leb_total o x y); congruence.
Qed.

Lemma order_by_Sorted o (rows : list Book.t) :
  Sorted (in_order o) (order_by o rows).
Proof.
  unfold order_by. induction rows as [|x l IH]; simpl; [constructor|].
  by apply insert_row_Sorted.
Qed.

(** Rendering keeps the order of the titles. *)
Lemma renders_Sorted s (R : Book.t -> Book.t -> Prop)
    (R' : BookJson -> BookJson -> Prop) rows arr :
  (forall x y j1 j2, renders s x j1 -> renders s y j2 -> R x y -> R' j1 j2) ->
  Forall2 (renders s) rows arr -> Sorted R rows -> Sorted R' arr.
Proof.
  intros HR H. induction H as [|x j l arr Hx Hl IH]; intros Hs; [constructor|].
  apply Sorted_inv in Hs as [Hs Hhd]. constructor; [by apply IH|].
  destruct Hl as [|y j' l arr Hy _]; constructor.
  apply HdRel_inv in Hhd. by eapply HR.
Qed.

Section Sorting.

Variable inherited : string -> option Exn.

(** The clause the view hands to [order_by] for a column name. *)
Lemma api_books_sorting_column (s : Store) (args : gmap string string)
    (name : string) (c : Book.column) (desc : bool) :
  args_get args "sort" "title" = name ->
  getattr_Book inherited name (AttrColumn Book.Ctitle) = AttrColumn c ->
  (if desc then args !! "order" = Some "desc"
   else args !! "order" <> Some "desc") ->
  api_books_sorting inherited s args
  = comprehension (book_json s)
      (order_by (if desc then Desc c else Asc c) (books s)).
Proof.
  intros Hsort Hattr Horder. unfold api_books_sorting, Book_query_all.
  rewrite Hsort, Hattr. unfold args_get.
  destruct desc.
  - rewrite Horder. by rewrite decide_True.
  - destruct (args !! "order") as [v|] eqn:E.
    + rewrite decide_False by congruence. done.
    + by rewrite decide_False.
Qed.

(** C3 (what the code does).  A sort value that names an attribute of
    Book which is no column is not replaced by the title ordering:
    __tablename__ is the str 'books' and __repr__ a function, neither has
    .asc() or .desc(), and the view raises AttributeError (status 500)
    in every store and for either order. *)
Theorem api_books_sorting_non_column_attribute_raises
    (debug : bool) (s : Store) :
  api_books_sorting inherited s {[ "sort" := "__tablename__" ]}
    = Raise AttributeError /\
  api_books_sorting inherited s
    (<[ "order" := "desc" ]> {[ "sort" := "__repr__" ]})
    = Raise AttributeError /\
  api_status debug
    (api_books_sorting inherited s {[ "sort" := "__tablename__" ]})
    = 500.
Proof.
  assert (H1 : api_books_sorting inherited s {[ "sort" := "__tablename__" ]}
               = Raise AttributeError) by reflexivity.
  split; [exact H1|]. split; [reflexivity|]. by rewrite H1.
Qed.

(** X1.  Sorting by title: with every Book owned by an Author, a request with
    no sort argument or with sort=title answers with the rendering of
    all Book rows; the titles are non-increasing when order=desc and
    non-decreasing otherwise. *)
Theorem api_books_sorting_by_title
    (s : Store) (args : gmap string string) (desc : bool) :
  referential_integrity s ->
  args !! "sort" = None \/ args !! "sort" = Some "title" ->
  (if desc then args !! "order" = Some "desc"
   else args !! "order" <> Some "desc") ->
  exists rows arr all,
    api_books_sorting inherited s args = Return arr /\
    rows ≡ₚ books s /\ Forall2 (renders s) rows arr /\
    api_books s = Return all /\ arr ≡ₚ all /\
    Sorted (if desc then title_nonincreasing else title_nondecreasing) arr.
Proof.
  intros Hint Hsort Horder.
  set (o := if desc then Desc Book.Ctitle else Asc Book.Ctitle).
  assert (Hperm : order_by o (books s) ≡ₚ books s) by apply order_by_Permutation.
  assert (Hlive : Forall (fun b => live s (Book.author_id b)) (order_by o (books s))).
  { by rewrite Hperm. }
  exists (order_by o (books s)), (map (json_or_blank s) (order_by o (books s))),
         (map (json_or_blank s) (books s)).
  assert (Hrender : comprehension (book_json s) (order_by o (books s))
                    = Return (map (json_or_blank s) (order_by o (books s))))
    by by apply comprehension_map.
  split.
  { rewrite (api_books_sorting_column s args "title" Book.Ctitle desc);
      [done| |done|done].
    unfold args_get. by destruct Hsort as [->| ->]. }
  split; [done|]. split; [by apply comprehension_renders|].
  split; [by apply comprehension_map|].
  split; [by apply Permutation_map|].
  apply (renders_Sorted s (in_order o)) with (rows := order_by o (books s));
    [|by apply comprehension_renders|apply order_by_Sorted].
  intros x y j1 j2 (_ & Hx & _) (_ & Hy & _). unfold in_order, o.
  destruct desc; simpl; unfold title_nonincreasing, title_nondecreasing;
    by rewrite Hx, Hy.
Qed.

(** X2.  The fallback: a sort value that names no attribute of Book at all
    (none bound in the class body, none found elsewhere) gets the answer
    of the same request with sort=title. *)
Theorem api_books_sorting_unknown_name_falls_back
    (s : Store) (args : gmap string string) (name : string) :
  args !! "sort" = Some name ->
  name ∉ ["id"; "title"; "isbn"; "author_id"; "__tablename__"; "__repr__"] ->
  inherited name = None ->
  api_books_sorting inherited s args
  = api_books_sorting inherited s (<[ "sort" := "title" ]> args).
Proof.
  intros Hsort Hname Hinh. unfold api_books_sorting, args_get.
  rewrite Hsort, lookup_insert_eq, lookup_insert_ne by done.
  assert (getattr_Book inherited name (AttrColumn Book.Ctitle)
          = AttrColumn Book.Ctitle) as ->; [|done].
  unfold getattr_Book. rewrite Hinh.
  repeat (rewrite decide_False; [|intros ->; apply Hname; set_solver]).
  done.
Qed.

End Sorting.

(** ** Invariants of the reachable stores *)

Lemma map_id_update_author (l : list Author.t) a' :
  map Author.id
      (map (fun x => if bool_decide (Author.id x = Author.id a') then a' else x) l)
  = map Author.id l.
Proof.
  induction l as [|x l IH]; simpl; [done|]. rewrite IH. f_equal.
  by case_bool_decide.
Qed.

Lemma map_id_update_book (l : list Book.t) b' :
  map Book.id
      (map (fun x => if bool_decide (Book.id x = Book.id b') then b' else x) l)
  = map Book.id l.
Proof.
  induction l as [|x l IH]; simpl; [done|]. rewrite IH. f_equal.
  by case_bool_decide.
Qed.

Lemma NoDup_map_filter {A : Type} (f : A -> Z) (P : A -> Prop)
    `{forall x, Decision (P x)} (l : list A) :
  NoDup (map f l) -> NoDup (map f (filter P l)).
Proof.
  induction l as [|a l IH]; simpl; intros Hnd; [constructor|].
  apply NoDup_cons in Hnd as [Hnin Hnd]. rewrite filter_cons.
  destruct (decide (P a)); simpl; [|by apply IH].
  apply NoDup_cons. split; [|by apply IH].
  intros Hin. apply Hnin.
  apply list_elem_of_In, in_map_iff in Hin as (x & Hx & Hin).
  apply list_elem_of_In, in_map_iff. exists x. split; [done|].
  apply list_elem_of_In in Hin. apply list_elem_of_filter in Hin as [_ Hin].
  by apply list_elem_of_In.
Qed.

Lemma NoDup_next_rowid (ids : list Z) : NoDup ids -> NoDup (ids ++ [next_rowid ids]).
Proof.
  intros Hnd. apply NoDup_app. split; [done|]. split; [|apply NoDup_singleton].
  intros i Hi ->%list_elem_of_singleton.
  pose proof (next_rowid_fresh _ _ Hi). lia.
Qed.

Lemma live_mono s s' i :
  (forall a, a ∈ authors s ->
             exists a', a' ∈ authors s' /\ Author.id a' = Author.id a) ->
  live s i -> live s' i.
Proof.
  intros Hsub (a & Ha & Hid). destruct (Hsub a Ha) as (a' & Ha' & Hid').
  exists a'. split; [done|congruence].
Qed.

Section Invariants.

Variable int : string -> option Z.

(** Every request leaves primary keys unique: an insert takes a rowid
    above all others, an update keeps the id, a delete removes rows. *)
Lemma serve_unique_keys s r : unique_keys s -> unique_keys (serve int s r).
Proof.
  intros [Ha Hb]. destruct r as [f|i f|i|f|i f|i|d]; simpl.
  - unfold add_author, form_getitem. destruct (f !! "name"); simpl; [|done].
    split; [|done]. simpl. rewrite map_app. by apply NoDup_next_rowid.
  - unfold update_author, form_getitem.
    lookup_cases i. destruct (Author_row s i) as [a0|]; simpl; [|done].
    destruct (f !! "name") as [n|]; simpl; [|done].
    split; [|done]. simpl.
    pose proof (map_id_update_author (authors s)
                  (Author.mk (Author.id a0) n (f !! "bio") (f !! "city"))) as Hids.
    simpl in Hids. by rewrite Hids.
  - unfold delete_author.
    lookup_cases i. destruct (Author_row s i); simpl; [|done].
    split; simpl; by apply NoDup_map_filter.
  - unfold add_book, form_getitem, int_call.
    destruct (f !! "title"); simpl; [|done].
    destruct (f !! "isbn"); simpl; [|done].
    destruct (f !! "author_id") as [text|]; simpl; [|done].
    destruct (int text) as [n|]; simpl; [|done].
    bind_cases n.
    split; [done|]. simpl. rewrite map_app. by apply NoDup_next_rowid.
  - unfold update_book, form_getitem, int_call.
    lookup_cases i. destruct (Book_row s i) as [b0|]; simpl; [|done].
    destruct (f !! "title") as [t|]; simpl; [|done].
    destruct (f !! "isbn") as [isbn|]; simpl; [|done].
    destruct (f !! "author_id") as [text|]; simpl; [|done].
    destruct (int text) as [n|]; simpl; [|done].
    bind_cases n.
    split; [done|]. simpl.
    pose proof (map_id_update_book (books s)
                  (Book.mk (Book.id b0) t (Some isbn) n)) as Hids.
    simpl in Hids. by rewrite Hids.
  - unfold delete_book.
    lookup_cases i. destruct (Book_row s i); simpl; [|done].
    split; [done|]. simpl. by apply NoDup_map_filter.
  - unfold api_add_book.
    destruct (data_title d) as [t|]; simpl; [|done].
    destruct (data_isbn d) as [isbn|]; simpl; [|done].
    destruct (data_author_id d) as [a|]; simpl; [|done].
    destruct a as [n|]; simpl; [|done].
    bind_cases n. destruct t; simpl; [|done].
    split; [done|]. simpl. rewrite map_app. by apply NoDup_next_rowid.
Qed.

(** X3.  In every reachable store the primary keys of each table are
    pairwise distinct. *)
Theorem reachable_unique_keys s : reachable int s -> unique_keys s.
Proof.
  induction 1 as [|s r _ IH]; [split; constructor|by apply serve_unique_keys].
Qed.

(** X4.  A request keeps every Book owned, provided the author_id it
    writes, if any, is that of an Author: the condition no view checks.
    Deleting an Author keeps it through the cascade. *)
Theorem serve_referential_integrity s r :
  referential_integrity s ->
  (forall a, written_author_id int r = Some a -> live s a) ->
  referential_integrity (serve int s r).
Proof.
  unfold referential_integrity.
  intros Hint Hlive. destruct r as [f|i f|i|f|i f|i|d]; simpl in *.
  - unfold add_author, form_getitem. destruct (f !! "name"); simpl; [|done].
    eapply Forall_impl; [exact Hint|]. intros b. apply live_mono.
    intros a Ha. exists a. split; [|done]. simpl. apply elem_of_app. by left.
  - unfold update_author, form_getitem.
    lookup_cases i.
    destruct (Author_row s i) as [author|] eqn:E; simpl; [|done].
    destruct (f !! "name") as [n|]; simpl; [|done].
    eapply Forall_impl; [exact Hint|]. intros b. apply live_mono.
    intros a Ha. simpl.
    eexists. split.
    + apply list_elem_of_In, in_map, list_elem_of_In. exact Ha.
    + simpl. by case_bool_decide.
  - unfold delete_author.
    lookup_cases i.
    destruct (Author_row s i) as [author|] eqn:E; simpl; [|done].
    apply Forall_forall. intros b Hb.
    apply list_elem_of_filter in Hb as [Hkept Hb].
    rewrite Forall_forall in Hint.
    destruct (Hint b Hb) as (a & Ha & Hid).
    exists a. split; [|done]. simpl. apply list_elem_of_filter. split; [|done].
    intros Heq. apply Hkept.
    apply list_elem_of_In, in_map, list_elem_of_In.
    unfold Author_books. apply list_elem_of_filter. split; [congruence|done].
  - unfold add_book, form_getitem, int_call.
    destruct (f !! "title"); simpl; [|done].
    destruct (f !! "isbn"); simpl; [|done].
    destruct (f !! "author_id") as [text|]; simpl; [|done].
    destruct (int text) as [n|]; simpl; [|done].
    bind_cases n.
    apply Forall_app. split; [done|]. constructor; [|done].
    by apply Hlive.
  - unfold update_book, form_getitem, int_call.
    lookup_cases i. destruct (Book_row s i); simpl; [|done].
    destruct (f !! "title"); simpl; [|done].
    destruct (f !! "isbn"); simpl; [|done].
    destruct (f !! "author_id") as [text|]; simpl; [|done].
    destruct (int text) as [n|]; simpl; [|done].
    bind_cases n.
    apply Forall_forall. intros b Hb.
    apply list_elem_of_In, in_map_iff in Hb as (x & <- & Hx).
    apply list_elem_of_In in Hx. rewrite Forall_forall in Hint.
    case_bool_decide; [by apply Hlive|by apply Hint].
  - unfold delete_book.
    lookup_cases i. destruct (Book_row s i); simpl; [|done].
    apply Forall_forall. intros b Hb.
    apply list_elem_of_filter in Hb as [_ Hb].
    rewrite Forall_forall in Hint. by apply Hint.
  - unfold api_add_book.
    destruct (data_title d) as [t|]; simpl; [|done].
    destruct (data_isbn d) as [isbn|]; simpl; [|done].
    destruct (data_author_id d) as [a|]; simpl; [|done].
    destruct a as [n|]; simpl; [|done].
    bind_cases n. destruct t; simpl; [|done].
    apply Forall_app. split; [done|]. constructor; [|done].
    by apply Hlive.
Qed.

(** With unique keys, deleting an Author touches no Book of another. *)
Lemma delete_author_keeps_other_books s i a b :
  unique_keys s -> Author_query_get s i = Return (Some a) ->
  b ∈ books s -> Book.author_id b <> i ->
  b ∈ books (store_after s (delete_author s i)).
Proof.
  intros [_ Hnd] Hget Hb Hne.
  pose proof Hget as [_ Hrow]%Author_query_get_Return.
  pose proof (Author_row_Some _ _ _ Hrow) as [_ Hid].
  unfold delete_author. rewrite Hget. simpl.
  apply list_elem_of_filter. split; [|done].
  intros Hin. apply list_elem_of_In, in_map_iff in Hin as (x & Hx & Hin).
  apply list_elem_of_In in Hin. unfold Author_books in Hin.
  apply list_elem_of_filter in Hin as [Hxa Hin].
  assert (x = b) as ->; [|congruence].
  clear -Hnd Hx Hin Hb. induction (books s) as [|y l IH]; simpl in *.
  { by apply elem_of_nil in Hb. }
  apply NoDup_cons in Hnd as [Hnin Hnd].
  apply elem_of_cons in Hb as [->|Hb], Hin as [->|Hin]; auto.
  - exfalso. apply Hnin. rewrite <- Hx.
    by apply list_elem_of_In, in_map, list_elem_of_In.
  - exfalso. apply Hnin. rewrite Hx.
    by apply list_elem_of_In, in_map, list_elem_of_In.
Qed.

End Invariants.

(** ** The properties at sample requests *)

Ltac solve_live :=
  match goal with
  | |- live ?s ?i =>
      first [ eexists; split; [apply list_elem_of_here|reflexivity]
            | eexists; split; [apply list_elem_of_further, list_elem_of_here
                              |reflexivity] ]
  end.

Lemma library_integrity : referential_integrity library.
Proof. unfold referential_integrity. simpl. repeat constructor; solve_live. Defined.

(** Deleting Austen (id 1) from the sample store removes her two Books. *)
Lemma delete_author_cascades_library :
  exists s',
    delete_author library 1
      = Return (s', redirect_index "Author deleted successfully!") /\
    Author_row s' 1 = None /\
    Book_row s' 1 = None /\ Book_row s' 3 = None.
Proof.
  destruct (delete_author_cascades decimal some_inherited library 1
              (Author.mk 1 "Austen" (Some "novelist") (Some "Bath")) eq_refl)
    as (s' & Hdel & _ & Hnone & _ & _ & Hbooks).
  exists s'. split; [exact Hdel|]. split; [exact Hnone|]. split.
  - apply (Hbooks (Book.mk 1 "Persuasion" (Some "111") 1));
      [apply list_elem_of_here|reflexivity].
  - apply (Hbooks (Book.mk 3 "Emma" (Some "333") 1));
      [do 2 apply list_elem_of_further; apply list_elem_of_here|reflexivity].
Defined.

(** The sample store in pages of two: two pages, which together are the
    array of /api/books. *)
Lemma api_books_paginated_library :
  exists pgs all,
    Forall2 (fun k pg => api_books_paginated decimal library (page_request k)
                         = Return pg)
            [1; 2] pgs /\
    api_books library = Return all /\
    concat (map json_books pgs) = all.
Proof.
  assert (Hp : args_get_int decimal (page_request 2) "per_page" 5 = 2)
    by reflexivity.
  assert (Hreq : forall k,
             1 <= k <= page_count (Z.of_nat (length (books library))) 2 ->
             args_get_int decimal (page_request k) "page" 1 = k /\
             args_get_int decimal (page_request k) "per_page" 5 = 2).
  { intros k Hk. change (page_count _ 2) with 2 in Hk.
    assert (k = 1 \/ k = 2) as [-> | ->] by lia; split; reflexivity. }
  destruct (api_books_paginated_contract decimal library 2 (page_request 2)
              page_request library_integrity eq_refl ltac:(lia) eq_refl
              Hp Hreq)
    as (_ & _ & _ & _ & pgs & all & Hpgs & Hall & _ & Hcat).
  exists pgs, all. split; [exact Hpgs|]. split; [exact Hall|exact Hcat].
Defined.

(** A new Author "Carroll" and a Book of his, in the sample store. *)
Lemma api_books_lists_new_book :
  exists s1 new s2 arr,
    add_author library carroll_form
      = Return (s1, redirect_index "Author added successfully!") /\
    authors s1 = authors library ++ [new] /\
    api_add_book s1 {| data_title := Some (Some "Sylvie and Bruno");
                       data_isbn := Some None;
                       data_author_id := Some (Some (Author.id new)) |}
      = Return (s2, {| success := true |}) /\
    api_books s2 = Return arr /\
    {| json_id := 4; json_title := "Sylvie and Bruno"; json_isbn := None;
       json_author := "Carroll" |} ∈ arr.
Proof.
  destruct (api_books_lists_every_book true library carroll_form
              "Carroll" "Sylvie and Bruno" None library_integrity
              eq_refl eq_refl)
    as (_ & s1 & new & s2 & arr & Hadd & Hnew & _ & Hbook & Hall & _ & Hin).
  exists s1, new, s2, arr.
  split; [exact Hadd|]. split; [exact Hnew|]. split; [exact Hbook|].
  split; [exact Hall|exact Hin].
Defined.


(** Book 2 of the sample store: replaced by a complete form, refused
    without isbn; and no Book 9 to update. *)
Lemma update_book_contract_library :
  update_book decimal library 9 ∅ = Raise NotFound /\
  (exists s',
     update_book decimal library 2 aleph_form
     = Return (s', redirect_index "Book updated successfully!") /\
     Book_query_get s' 2
     = Return (Some (Book.mk 2 "El Aleph" (Some "222") 1))) /\
  (exists key,
     update_book decimal library 2 aleph_form_without_isbn
     = Raise (BadRequestKeyError key)).
Proof.
  split; [|split].
  - apply (update_book_contract decimal library 9 ∅). reflexivity.
  - destruct (update_book_contract decimal library 2 aleph_form)
      as (_ & Hfull & _).
    apply (Hfull (Book.mk 2 "Ficciones" None 2) "El Aleph" "222" "1" 1);
      reflexivity.
  - destruct (update_book_contract decimal library 2 aleph_form_without_isbn)
      as (_ & _ & Hmiss).
    destruct (Hmiss (Book.mk 2 "Ficciones" None 2) eq_refl) as (key & Hkey & _);
      [right; left; reflexivity|].
    exists key. exact Hkey.
Defined.

(** Page 3 of the sample store in pages of two does not exist. *)
Lemma page_beyond_last_not_found_library :
  api_books_paginated decimal library page_three = Raise NotFound.
Proof.
  apply (page_beyond_last_not_found decimal true library page_three).
  - discriminate.
  - reflexivity.
  - intros _ _. split; reflexivity.
Defined.

(** C8 as stated fails on the empty store: there is no page at all, the
    default request asks for page 1, and the answer is not NotFound but
    the empty page. *)
Lemma empty_store_page_one_is_served :
  page_count (Z.of_nat (length (books empty_store)))
             (args_get_int decimal ∅ "per_page" 5)
    < args_get_int decimal ∅ "page" 1 /\
  api_books_paginated decimal empty_store ∅
    = Return {| json_total := 0; json_pages := 0; json_books := [] |}.
Proof. split; reflexivity. Defined.

(** A page number whose row offset does not fit a signed 64-bit integer
    is answered by neither a page nor NotFound: binding the offset
    raises. *)
Lemma page_offset_overflow :
  api_books_paginated decimal library page_huge = Raise OverflowError /\
  api_status false (api_books_paginated decimal library page_huge) = 500.
Proof. split; reflexivity. Qed.

(** C2 as stated fails for a positive per_page that does not fit a
    signed 64-bit integer, whose binding as the LIMIT raises, and on the
    store that holds a Book without Author, whose rendering raises. *)
Lemma api_books_paginated_not_served :
  0 < args_get_int decimal per_page_huge "per_page" 5 /\
  api_books_paginated decimal library per_page_huge = Raise OverflowError /\
  api_status false (api_books_paginated decimal library per_page_huge) = 500 /\
  reachable decimal orphan_store /\
  0 < args_get_int decimal ∅ "per_page" 5 /\
  api_books_paginated decimal orphan_store ∅ = Raise AttributeError /\
  api_status false (api_books_paginated decimal orphan_store ∅) = 500.
Proof.
  split; [reflexivity|]. split; [reflexivity|]. split; [reflexivity|].
  split; [apply reachable_served, reachable_created|].
  split; reflexivity || (split; reflexivity).
Qed.


(** C7 as stated fails for an id that no Book has and that does not fit
    a signed 64-bit integer (OverflowError, not NotFound), and for
    complete forms on an existing Book whose author_id does not fit or
    is no integer literal: nothing is replaced. *)
Lemma update_book_not_replaced :
  Book_row library 9223372036854775808 = None /\
  update_book decimal library 9223372036854775808 aleph_form
    = Raise OverflowError /\
  Book_row library 2 = Some (Book.mk 2 "Ficciones" None 2) /\
  update_book decimal library 2 huge_author_form = Raise OverflowError /\
  serve decimal library (PostUpdateBook 2 huge_author_form) = library /\
  update_book decimal library 2 text_author_form = Raise ValueError /\
  serve decimal library (PostUpdateBook 2 text_author_form) = library.
Proof. repeat split. Qed.

(** A book form without isbn, and an author form with only a name. *)
Lemma add_book_needs_isbn_library :
  (exists key,
     add_book decimal library aleph_form_without_isbn
     = Raise (BadRequestKeyError key)) /\
  (exists a,
     add_author library carroll_form
     = Return ({| authors := authors library ++ [a]; books := books library |},
               redirect_index "Author added successfully!") /\
     Author.bio a = None /\ Author.city a = None).
Proof.
  destruct (add_book_needs_isbn_add_author_needs_neither decimal library
              aleph_form_without_isbn carroll_form "Carroll" eq_refl eq_refl)
    as [(key & Hkey & _) (a & Hadd & _ & _ & _ & Hbio & Hcity)].
  split; [exists key; exact Hkey|].
  exists a. split; [exact Hadd|]. split; [apply Hbio|apply Hcity]; reflexivity.
Defined.

(** Austen's bio and city are set to NULL by a form with only a name. *)
Lemma update_author_overwrites_library :
  exists s' a',
    update_author library 1 jane_form
      = Return (s', redirect_index "Author updated successfully!") /\
    Author_query_get s' 1 = Return (Some a') /\
    Author.name a' = "Jane Austen" /\
    Author.bio a' = None /\ Author.city a' = None.
Proof.
  destruct (update_author_overwrites_optional_fields library 1
              (Author.mk 1 "Austen" (Some "novelist") (Some "Bath"))
              jane_form "Jane Austen" eq_refl eq_refl)
    as (s' & a' & Hup & Hget & _ & Hname & _ & _ & Hbio & Hcity).
  exists s', a'. split; [exact Hup|]. split; [exact Hget|].
  split; [exact Hname|]. split; [apply Hbio|apply Hcity]; reflexivity.
Defined.

(** The sample store by title, descending. *)
Lemma api_books_sorting_by_title_library :
  exists arr,
    api_books_sorting some_inherited library desc_request = Return arr /\
    Sorted title_nonincreasing arr.
Proof.
  destruct (api_books_sorting_by_title some_inherited library desc_request true
              library_integrity (or_introl eq_refl) eq_refl)
    as (rows & arr & all & Hret & _ & _ & _ & _ & Hsorted).
  exists arr. split; [exact Hret|exact Hsorted].
Defined.

(** Book has no attribute rating: the answer is that of sort=title. *)
Lemma api_books_sorting_rating_falls_back :
  api_books_sorting some_inherited library rating_request
  = api_books_sorting some_inherited library (<[ "sort" := "title" ]> rating_request).
Proof.
  apply (api_books_sorting_unknown_name_falls_back some_inherited library
           rating_request "rating"); [reflexivity| |reflexivity].
  intros H. repeat (apply elem_of_cons in H as [H|H]; [discriminate|]).
  by apply elem_of_nil in H.
Defined.

(** The store after two POST /add-author, two POST /add-book and one
    POST /api/add-book holds two Authors and three Books, and has unique
    keys. *)
Lemma busy_store_reachable : reachable decimal busy_store.
Proof. do 5 apply reachable_served. apply reachable_created. Defined.

Lemma reachable_unique_keys_busy_store :
  length (authors busy_store) = 2%nat /\
  length (books busy_store) = 3%nat /\
  unique_keys busy_store.
Proof.
  split; [reflexivity|]. split; [reflexivity|].
  apply (reachable_unique_keys decimal). exact busy_store_reachable.
Defined.

(** Updating Book 2 of the sample store to Author 1 keeps every Book owned. *)
Lemma serve_referential_integrity_library :
  referential_integrity (serve decimal library (PostUpdateBook 2 aleph_form)).
Proof.
  apply (serve_referential_integrity decimal library
           (PostUpdateBook 2 aleph_form) library_integrity).
  intros a Ha. injection Ha as <-. solve_live.
Defined.

(** * More of the views *)

(** ** Lookups by key in a table that one row was written to *)

Section Keyed.

Context {A : Type} (key : A -> Z).

Lemma find_key_Some (l : list A) k x :
  List.find (fun y => bool_decide (key y = k)) l = Some x -> x ∈ l /\ key x = k.
Proof.
  intros H. apply find_some in H as [Hin Hk].
  apply bool_decide_eq_true in Hk. split; [by apply list_elem_of_In|done].
Qed.

Lemma find_key_app_old (l : list A) new k x :
  List.find (fun y => bool_decide (key y = k)) l = Some x ->
  List.find (fun y => bool_decide (key y = k)) (l ++ [new]) = Some x.
Proof.
  induction l as [|y l IH]; simpl; [done|].
  destruct (bool_decide (key y = k)); auto.
Qed.

Lemma find_key_app_new (l : list A) new :
  (forall y, y ∈ l -> key y <> key new) ->
  List.find (fun y => bool_decide (key y = key new)) (l ++ [new]) = Some new.
Proof.
  induction l as [|y l IH]; simpl; intros Hne.
  - by rewrite bool_decide_eq_true_2.
  - rewrite bool_decide_eq_false_2 by (apply Hne; left).
    apply IH. intros z Hz. apply Hne. by right.
Qed.

Lemma find_key_filter_other (l : list A) i k :
  k <> i ->
  List.find (fun y => bool_decide (key y = k)) (filter (fun y => key y <> i) l)
  = List.find (fun y => bool_decide (key y = k)) l.
Proof.
  intros Hne. induction l as [|y l IH]; [done|].
  rewrite filter_cons. destruct (decide (key y <> i)) as [Hy|Hy]; simpl.
  - by rewrite IH.
  - rewrite IH. rewrite bool_decide_eq_false_2; [done|].
    intros Hk. apply Hy. congruence.
Qed.

Lemma find_key_filter_gone (l : list A) i :
  List.find (fun y => bool_decide (key y = i)) (filter (fun y => key y <> i) l)
  = None.
Proof.
  induction l as [|y l IH]; [done|].
  rewrite filter_cons. destruct (decide (key y <> i)) as [Hy|Hy]; simpl; [|done].
  by rewrite bool_decide_eq_false_2.
Qed.

Lemma find_key_update_other (l : list A) new k :
  k <> key new ->
  List.find (fun y => bool_decide (key y = k))
    (map (fun y => if bool_decide (key y = key new) then new else y) l)
  = List.find (fun y => bool_decide (key y = k)) l.
Proof.
  intros Hne. induction l as [|y l IH]; simpl; [done|].
  rewrite IH. destruct (decide (key y = key new)) as [Hy|Hy].
  - rewrite (bool_decide_eq_true_2 _ Hy).
    rewrite !bool_decide_eq_false_2 by congruence. done.
  - by rewrite (bool_decide_eq_false_2 _ Hy).
Qed.

Lemma filter_key_fresh (l : list A) new :
  (forall y, y ∈ l -> key y <> key new) ->
  filter (fun y => key y <> key new) (l ++ [new]) = l.
Proof.
  intros Hne. rewrite filter_app.
  rewrite (filter_cons_False _ new []) by (intros H; by apply H).
  rewrite filter_nil, app_nil_r.
  induction l as [|y l IH]; [done|].
  rewrite filter_cons_True by (apply Hne; left).
  f_equal. apply IH. intros z Hz. apply Hne. by right.
Qed.

End Keyed.

Lemma filter_keeps_all {A : Type} (P : A -> Prop) `{forall x, Decision (P x)}
    (l : list A) :
  (forall x, x ∈ l -> P x) -> filter P l = l.
Proof.
  intros Hall. induction l as [|y l IH]; [done|].
  rewrite filter_cons_True by (apply Hall; left).
  f_equal. apply IH. intros z Hz. apply Hall. by right.
Qed.

Lemma fresh_author_id s x :
  x ∈ authors s -> Author.id x < next_rowid (map Author.id (authors s)).
Proof.
  intros Hx. apply next_rowid_fresh.
  by apply list_elem_of_In, in_map, list_elem_of_In.
Qed.

Lemma fresh_book_id s x :
  x ∈ books s -> Book.id x < next_rowid (map Book.id (books s)).
Proof.
  intros Hx. apply next_rowid_fresh.
  by apply list_elem_of_In, in_map, list_elem_of_In.
Qed.

(** ** Writes: what each changes, and what it leaves alone *)

Section Writes.

Variable int : string -> option Z.

(** X5.  GET /delete-book/{id}: OverflowError, and nothing committed,
    when the id does not fit a signed 64-bit integer; NotFound when it
    fits and no Book has it.  Otherwise the Books left are exactly those
    of another id, in their order; the authors table is untouched; a
    lookup of the deleted id misses and a lookup of any other id answers
    as before. *)
Theorem delete_book_contract (s : Store) (i : Z) :
  (in_int64 i = false ->
   delete_book s i = Raise OverflowError /\
   store_after s (delete_book s i) = s) /\
  (Book_query_get s i = Return None -> delete_book s i = Raise NotFound) /\
  (forall b, Book_query_get s i = Return (Some b) ->
     exists s',
       delete_book s i
         = Return (s', redirect_index "Book deleted successfully!") /\
       authors s' = authors s /\
       books s' = filter (fun x => Book.id x <> i) (books s) /\
       (forall x, x ∈ books s' <-> x ∈ books s /\ Book.id x <> i) /\
       Book_query_get s' i = Return None /\
       (forall k, k <> i -> Book_row s' k = Book_row s k) /\
       (forall k, k <> i -> Book_query_get s' k = Book_query_get s k)).
Proof.
  split; [|split].
  - intros Hover. unfold delete_book.
    by rewrite (Book_query_get_overflow _ _ Hover).
  - intros Hget. unfold delete_book. by rewrite Hget.
  - intros b Hget.
    pose proof Hget as [Hfits Hrow]%Book_query_get_Return.
    pose proof (Book_row_Some _ _ _ Hrow) as [_ Hid].
    unfold delete_book. rewrite Hget. simpl.
    eexists. split; [reflexivity|]. unfold session_delete_book. simpl.
    rewrite Hid.
    assert (Hother : forall k, k <> i ->
              Book_row {| authors := authors s;
                          books := filter (fun x => Book.id x <> i) (books s) |} k
              = Book_row s k).
    { intros k Hk. by apply (find_key_filter_other Book.id). }
    split; [done|]. split; [done|]. split; [|split; [|split]].
    + intros x. rewrite list_elem_of_filter. tauto.
    + apply Book_query_get_Return. split; [done|].
      apply (find_key_filter_gone Book.id).
    + exact Hother.
    + intros k Hk. apply Book_query_get_row. by apply Hother.
Qed.

(** X6.  POST /add-book with title, isbn and author_id fields: when int()
    rejects the author_id text the view raises ValueError, and when the
    integer does not fit a signed 64-bit integer it raises OverflowError;
    either way nothing is committed.  Otherwise it appends one Book whose
    id is above every id in the table, whose isbn is the submitted text
    (the empty text too, never NULL) and whose author_id is the integer,
    whether or not an Author has that id.  The new id looks up the new
    Book; every earlier lookup answers as before. *)
Theorem add_book_contract (s : Store) (form : gmap string string)
    (t isbn text : string) :
  form !! "title" = Some t -> form !! "isbn" = Some isbn ->
  form !! "author_id" = Some text ->
  match int text with
  | None => add_book int s form = Raise ValueError /\
            store_after s (add_book int s form) = s
  | Some n =>
      if in_int64 n then
        let b := Book.mk (next_rowid (map Book.id (books s))) t (Some isbn) n in
        let s' := {| authors := authors s; books := books s ++ [b] |} in
        add_book int s form
          = Return (s', redirect_index "Book added successfully!") /\
        (forall x, x ∈ books s -> Book.id x < Book.id b) /\
        Book_row s' (Book.id b) = Some b /\
        (forall k x, Book_row s k = Some x -> Book_row s' k = Some x) /\
        (forall k x, Book_query_get s k = Return (Some x) ->
                     Book_query_get s' k = Return (Some x))
      else
        add_book int s form = Raise OverflowError /\
        store_after s (add_book int s form) = s
  end.
Proof.
  intros Ht Hi Ha. unfold add_book, form_getitem, int_call.
  rewrite Ht, Hi, Ha. simpl.
  destruct (int text) as [n|]; simpl; [|done].
  bind_cases n.
  set (b := Book.mk (next_rowid (map Book.id (books s))) t (Some isbn) n).
  assert (Hold : forall k x, Book_row s k = Some x ->
            Book_row {| authors := authors s; books := books s ++ [b] |} k
            = Some x).
  { intros k x. exact (find_key_app_old Book.id (books s) b k x). }
  split; [done|]. split; [apply fresh_book_id|]. split; [|split].
  - exact (find_key_app_new Book.id (books s) b
             (fun y Hy => Z.lt_neq _ _ (fresh_book_id s y Hy))).
  - exact Hold.
  - intros k x [Hk Hx]%Book_query_get_Return.
    apply Book_query_get_Return. split; [done|]. by apply Hold.
Qed.

(** X7.  POST /update-book/{id} on an existing Book with the three
    fields: ValueError when int() rejects the author_id text and
    OverflowError when the integer does not fit a signed 64-bit integer,
    with nothing committed; otherwise the authors table, the ids and
    order of the Books, and every Book of another id are as before. *)
Theorem update_book_frame (s : Store) (i : Z) (b : Book.t)
    (form : gmap string string) (t isbn text : string) :
  Book_query_get s i = Return (Some b) ->
  form !! "title" = Some t -> form !! "isbn" = Some isbn ->
  form !! "author_id" = Some text ->
  match int text with
  | None => update_book int s i form = Raise ValueError /\
            store_after s (update_book int s i form) = s
  | Some n =>
      if in_int64 n then
        exists s',
          update_book int s i form
            = Return (s', redirect_index "Book updated successfully!") /\
          authors s' = authors s /\
          map Book.id (books s') = map Book.id (books s) /\
          (forall k, k <> i -> Book_row s' k = Book_row s k) /\
          (forall k, k <> i -> Book_query_get s' k = Book_query_get s k)
      else
        update_book int s i form = Raise OverflowError /\
        store_after s (update_book int s i form) = s
  end.
Proof.
  intros Hget Ht Hi Ha.
  pose proof Hget as [_ Hrow]%Book_query_get_Return.
  pose proof (Book_row_Some _ _ _ Hrow) as [_ Hid].
  unfold update_book, form_getitem, int_call.
  rewrite Hget, Ht, Hi, Ha. simpl.
  destruct (int text) as [n|]; simpl; [|done].
  bind_cases n.
  eexists. split; [reflexivity|]. simpl.
  assert (Hother : forall k, k <> i ->
            Book_row
              {| authors := authors s;
                 books := map (fun x => if bool_decide (Book.id x = Book.id b)
                                        then Book.mk (Book.id b) t (Some isbn) n
                                        else x) (books s) |} k
            = Book_row s k).
  { intros k Hk. unfold Book_row. simpl.
    pose proof (find_key_update_other Book.id (books s)
                  (Book.mk (Book.id b) t (Some isbn) n) k) as Hfind.
    simpl in Hfind. apply Hfind. congruence. }
  split; [done|]. split; [|split].
  - pose proof (map_id_update_book (books s)
                  (Book.mk (Book.id b) t (Some isbn) n)) as Hids.
    simpl in Hids. exact Hids.
  - exact Hother.
  - intros k Hk. apply Book_query_get_row. by apply Hother.
Qed.

(** X8.  POST /add-author: without a name field the view raises the
    missing-key error for name, whatever else the form holds; with one it
    appends an Author whose id is above every id in the table, leaves the
    books table alone, and afterwards the new id looks up the new Author
    and every earlier lookup answers as before. *)
Theorem add_author_contract (s : Store) (form : gmap string string) :
  match form !! "name" with
  | None => add_author s form = Raise (BadRequestKeyError "name")
  | Some n =>
      let a := Author.mk (next_rowid (map Author.id (authors s))) n
                         (form !! "bio") (form !! "city") in
      let s' := {| authors := authors s ++ [a]; books := books s |} in
      add_author s form
        = Return (s', redirect_index "Author added successfully!") /\
      (forall x, x ∈ authors s -> Author.id x < Author.id a) /\
      Author_row s' (Author.id a) = Some a /\
      (forall k x, Author_row s k = Some x ->
                   Author_row s' k = Some x) /\
      (forall k x, Author_query_get s k = Return (Some x) ->
                   Author_query_get s' k = Return (Some x))
  end.
Proof.
  unfold add_author, form_getitem.
  destruct (form !! "name") as [n|]; simpl; [|done].
  set (a := Author.mk (next_rowid (map Author.id (authors s))) n
                      (form !! "bio") (form !! "city")).
  assert (Hold : forall k x, Author_row s k = Some x ->
            Author_row {| authors := authors s ++ [a]; books := books s |} k
            = Some x).
  { intros k x. exact (find_key_app_old Author.id (authors s) a k x). }
  split; [done|]. split; [apply fresh_author_id|]. split; [|split].
  - exact (find_key_app_new Author.id (authors s) a
             (fun y Hy => Z.lt_neq _ _ (fresh_author_id s y Hy))).
  - exact Hold.
  - intros k x [Hk Hx]%Author_query_get_Return.
    apply Author_query_get_Return. split; [done|]. by apply Hold.
Qed.

(** X9.  POST /update-author/{id}: OverflowError when the id does not fit
    a signed 64-bit integer and NotFound when it fits and no Author has
    it, also for a form without name; the missing-key error for name when
    the Author exists and the form has none; otherwise the books table,
    the ids and order of the Authors, and every Author of another id are
    as before. *)
Theorem update_author_contract (s : Store) (i : Z)
    (form : gmap string string) :
  match Author_query_get s i, form !! "name" with
  | Raise e, _ =>
      in_int64 i = false /\ e = OverflowError /\
      update_author s i form = Raise OverflowError
  | Return None, _ => update_author s i form = Raise NotFound
  | Return (Some _), None =>
      update_author s i form = Raise (BadRequestKeyError "name")
  | Return (Some _), Some _ =>
      exists s',
        update_author s i form
          = Return (s', redirect_index "Author updated successfully!") /\
        books s' = books s /\
        map Author.id (authors s') = map Author.id (authors s) /\
        (forall k, k <> i -> Author_row s' k = Author_row s k) /\
        (forall k, k <> i -> Author_query_get s' k = Author_query_get s k)
  end.
Proof.
  unfold update_author, form_getitem.
  destruct (Author_query_get s i) as [[a|]|e] eqn:Hget; simpl; [|done|].
  2:{ unfold Author_query_get, bind_integer in Hget.
      destruct (in_int64 i); simpl in Hget; [done|]. by injection Hget as <-. }
  destruct (form !! "name") as [n|]; simpl; [|done].
  pose proof Hget as [_ Hrow]%Author_query_get_Return.
  pose proof (Author_row_Some _ _ _ Hrow) as [_ Hid].
  eexists. split; [reflexivity|]. simpl.
  assert (Hother : forall k, k <> i ->
            Author_row
              (session_update_author s
                 (Author.mk (Author.id a) n (form !! "bio") (form !! "city"))) k
            = Author_row s k).
  { intros k Hk. unfold Author_row. simpl.
    pose proof (find_key_update_other Author.id (authors s)
                  (Author.mk (Author.id a) n (form !! "bio") (form !! "city")) k)
      as Hfind.
    simpl in Hfind. apply Hfind. congruence. }
  split; [done|]. split; [|split].
  - pose proof (map_id_update_author (authors s)
                  (Author.mk (Author.id a) n (form !! "bio") (form !! "city")))
      as Hids.
    simpl in Hids. exact Hids.
  - exact Hother.
  - intros k Hk. apply Author_query_get_row. by apply Hother.
Qed.

End Writes.

(** ** Rendering, row by row *)

Lemma comprehension_ext {A B : Type} (f : A -> Result B) (g : A -> B)
    (l : list A) :
  Forall (fun x => f x = Return (g x)) l ->
  comprehension f l = Return (map g l).
Proof.
  induction 1 as [|x l Hx _ IH]; simpl; [done|]. by rewrite Hx, IH.
Qed.

Lemma Forall2_map_r {A B : Type} (P : A -> B -> Prop) (g : A -> B) (l : list A) :
  Forall (fun x => P x (g x)) l -> Forall2 P l (map g l).
Proof. induction 1; simpl; constructor; auto. Qed.

Lemma book_json_outcome s b :
  (live s (Book.author_id b) /\ exists j, book_json s b = Return j) \/
  (~ live s (Book.author_id b) /\ book_json s b = Raise AttributeError).
Proof.
  unfold book_json, Book_author.
  destruct (Author_row s (Book.author_id b)) as [a|] eqn:E.
  - left. apply Author_row_Some in E as [Hin Hid].
    split; [by exists a|by eexists].
  - right. split; [by apply Author_row_None|done].
Qed.

(** A comprehension over rows returns when each row has its Author, and
    raises AttributeError when one has none. *)
Lemma comprehension_book_json_outcome s (l : list Book.t) :
  (Forall (fun b => live s (Book.author_id b)) l /\
   exists arr, comprehension (book_json s) l = Return arr) \/
  (~ Forall (fun b => live s (Book.author_id b)) l /\
   comprehension (book_json s) l = Raise AttributeError).
Proof.
  induction l as [|b l IH]; simpl.
  - left. split; [constructor|by eexists].
  - destruct (book_json_outcome s b) as [[Hb [j ->]]|[Hb ->]]; simpl.
    + destruct IH as [[Hl [arr ->]]|[Hl ->]]; simpl.
      * left. split; [by constructor|by eexists].
      * right. split; [|done]. intros H. by apply Forall_cons in H as [_ H].
    + right. split; [|done]. intros H. by apply Forall_cons in H as [H _].
Qed.

Lemma filter_drops_all {A : Type} (P : A -> Prop) `{forall x, Decision (P x)}
    (l : list A) :
  (forall x, x ∈ l -> ~ P x) -> filter P l = [].
Proof.
  intros Hnone. induction l as [|y l IH]; [done|].
  rewrite filter_cons_False by (apply Hnone; left).
  apply IH. intros z Hz. apply Hnone. by right.
Qed.

Lemma store_eta (s : Store) : {| authors := authors s; books := books s |} = s.
Proof. by destruct s. Qed.

Section Compositions.

Variable int : string -> option Z.

(** X10.  GET /api/books is answered 200 exactly when every Book has its
    Author, and otherwise raises AttributeError and nothing else. *)
Theorem api_books_outcome (s : Store) :
  (referential_integrity s <-> exists arr, api_books s = Return arr) /\
  (~ referential_integrity s <-> api_books s = Raise AttributeError) /\
  (forall e, api_books s = Raise e -> e = AttributeError).
Proof.
  unfold api_books, Book_query_all, referential_integrity.
  destruct (comprehension_book_json_outcome s (books s))
    as [[Hl [arr Harr]]|[Hl Hraise]].
  - rewrite Harr. split; [|split].
    + split; [by eexists|done].
    + split; [done|discriminate].
    + discriminate.
  - rewrite Hraise. split; [|split].
    + split; [done|]. by intros [arr ?].
    + done.
    + by intros e [= <-].
Qed.

(** C4 (what the code does).  On a store that holds a Book whose
    author_id is the id of no Author, GET /api/books raises
    AttributeError: the answer is status 500 and no array, so the Books
    that do have their Author are not listed either. *)
Theorem api_books_raises_on_book_without_author
    (debug : bool) (s : Store) (b : Book.t) :
  b ∈ books s -> ~ live s (Book.author_id b) ->
  api_books s = Raise AttributeError /\
  api_status debug (api_books s) = 500 /\
  (forall arr, api_books s <> Return arr).
Proof.
  intros Hb Hdead.
  assert (api_books s = Raise AttributeError) as ->; [|done].
  unfold api_books, Book_query_all.
  destruct (comprehension_book_json_outcome s (books s))
    as [[Hl _]|[_ Hraise]]; [|done].
  rewrite Forall_forall in Hl. by apply Hl in Hb.
Qed.

(** X11.  After POST /update-author/{id} with a name, in a store where
    every Book has its Author, GET /api/books shows the new name for each
    Book of that Author and the same object as before for every other
    Book. *)
Theorem update_author_renames_in_api_books
    (s : Store) (i : Z) (a : Author.t) (form : gmap string string) (n : string) :
  referential_integrity s ->
  Author_query_get s i = Return (Some a) ->
  form !! "name" = Some n ->
  exists s' arr,
    update_author s i form
      = Return (s', redirect_index "Author updated successfully!") /\
    api_books s' = Return arr /\
    Forall2 (fun b j =>
               if decide (Book.author_id b = i)
               then j = {| json_id := Book.id b; json_title := Book.title b;
                           json_isbn := Book.isbn b; json_author := n |}
               else book_json s b = Return j)
            (books s) arr.
Proof.
  intros Hint Hquery Hname.
  pose proof Hquery as [_ Hget]%Author_query_get_Return.
  pose proof (Author_row_Some _ _ _ Hget) as [_ Hid].
  unfold update_author, form_getitem. rewrite Hquery, Hname. simpl.
  set (a' := Author.mk (Author.id a) n (form !! "bio") (form !! "city")).
  set (s' := session_update_author s a').
  set (g := fun b => if decide (Book.author_id b = i)
                     then {| json_id := Book.id b; json_title := Book.title b;
                             json_isbn := Book.isbn b; json_author := n |}
                     else json_or_blank s b).
  assert (Hfound : Author_row s' i = Some a').
  { pose proof Hget as Hget'. unfold Author_row in Hget'.
    rewrite <- Hid in Hget'. rewrite <- Hid.
    exact (find_author_updated (authors s) a a' Hget'). }
  assert (Hother : forall k, k <> i ->
                     Author_row s' k = Author_row s k).
  { intros k Hk.
    exact (find_key_update_other Author.id (authors s) a' k
             ltac:(simpl; congruence)). }
  assert (Hg : Forall (fun b => book_json s' b = Return (g b)) (books s)).
  { eapply Forall_impl; [exact Hint|]. intros b Hlive. unfold g.
    unfold book_json at 1. unfold Book_author.
    destruct (decide (Book.author_id b = i)) as [Hb|Hb].
    - by rewrite Hb, Hfound.
    - rewrite (Hother _ Hb). unfold json_or_blank.
      destruct (book_json_live _ _ Hlive) as [j Hj]. rewrite Hj.
      unfold book_json, Book_author in Hj. exact Hj. }
  exists s', (map g (books s)). split; [done|]. split.
  - unfold api_books, Book_query_all. by apply comprehension_ext.
  - apply Forall2_map_r. eapply Forall_impl; [exact Hint|].
    intros b Hlive. unfold g. destruct (decide (Book.author_id b = i)); [done|].
    unfold json_or_blank. by destruct (book_json_live _ _ Hlive) as [j ->].
Qed.

(** X12.  GET /delete-author/{id}: OverflowError, and nothing committed,
    when the id does not fit a signed 64-bit integer; NotFound when it
    fits and no Author has it.  With unique primary keys, deleting an
    existing Author leaves exactly the Books of other Authors, and a
    lookup of any other Author id answers as before. *)
Theorem delete_author_frame (s : Store) (i : Z) :
  (in_int64 i = false ->
   delete_author s i = Raise OverflowError /\
   store_after s (delete_author s i) = s) /\
  (Author_query_get s i = Return None -> delete_author s i = Raise NotFound) /\
  (forall a, unique_keys s -> Author_query_get s i = Return (Some a) ->
     exists s',
       delete_author s i
         = Return (s', redirect_index "Author deleted successfully!") /\
       (forall k, k <> i -> Author_row s' k = Author_row s k) /\
       (forall k, k <> i -> Author_query_get s' k = Author_query_get s k) /\
       (forall b, b ∈ books s' <-> b ∈ books s /\ Book.author_id b <> i)).
Proof.
  split; [|split].
  - intros Hover. unfold delete_author.
    by rewrite (Author_query_get_overflow _ _ Hover).
  - intros Hget. unfold delete_author. by rewrite Hget.
  - intros a Huniq Hget.
    pose proof Hget as [_ Hrow]%Author_query_get_Return.
    pose proof (Author_row_Some _ _ _ Hrow) as [_ Hid].
    pose proof (delete_author_keeps_other_books s i a) as Hkeep.
    unfold delete_author in *. rewrite Hget in *. simpl in *.
    assert (Hother : forall k, k <> i ->
              Author_row (session_delete_author s a) k = Author_row s k).
    { intros k Hk. unfold Author_row, session_delete_author. simpl.
      rewrite Hid. by apply (find_key_filter_other Author.id). }
    eexists. split; [reflexivity|]. split; [exact Hother|]. split.
    + intros k Hk. apply Author_query_get_row. by apply Hother.
    + intros b. split.
      * intros Hb. unfold session_delete_author in Hb. simpl in Hb.
        apply list_elem_of_filter in Hb as [Hkept Hb]. split; [done|].
        intros Hbi. apply Hkept.
        apply list_elem_of_In, in_map, list_elem_of_In.
        unfold Author_books. apply list_elem_of_filter. split; [congruence|done].
      * intros [Hb Hbi]. by apply Hkeep.
Qed.

(** X13.  Adding an Author and deleting it again: in a store where every
    Book has its Author, GET /delete-author/{id} for the id that
    POST /add-author just assigned (an id that fits a signed 64-bit
    integer, as every rowid SQLite assigns does) gives back the store as
    it was before the add, so the next Author added receives the same id
    again. *)
Theorem add_then_delete_author_restores
    (s : Store) (form : gmap string string) (n : string) :
  referential_integrity s ->
  in_int64 (next_rowid (map Author.id (authors s))) = true ->
  form !! "name" = Some n ->
  delete_author (store_after s (add_author s form))
                (next_rowid (map Author.id (authors s)))
  = Return (s, redirect_index "Author deleted successfully!").
Proof.
  intros Hint Hfits Hname.
  unfold add_author, form_getitem. rewrite Hname. simpl.
  set (a := Author.mk (next_rowid (map Author.id (authors s))) n
                      (form !! "bio") (form !! "city")).
  set (s1 := session_add_author s n (form !! "bio") (form !! "city")).
  assert (Hfresh : forall y, y ∈ authors s -> Author.id y <> Author.id a).
  { intros y Hy. apply Z.lt_neq. by apply fresh_author_id. }
  assert (Hget1 : Author_query_get s1 (Author.id a) = Return (Some a)).
  { apply Author_query_get_Return. split; [exact Hfits|].
    exact (find_key_app_new Author.id (authors s) a Hfresh). }
  assert (Howned : Author_books s1 a = []).
  { unfold Author_books. apply filter_drops_all. intros b Hb Hba.
    unfold referential_integrity in Hint. rewrite Forall_forall in Hint.
    destruct (Hint b Hb) as (y & Hy & Hyb). apply (Hfresh y Hy). congruence. }
  change (delete_author s1 (Author.id a)
          = Return (s, redirect_index "Author deleted successfully!")).
  unfold delete_author. rewrite Hget1. simpl. do 2 f_equal.
  etransitivity; [|apply store_eta]. unfold session_delete_author.
  rewrite Howned. f_equal.
  - exact (filter_key_fresh Author.id (authors s) a Hfresh).
  - apply filter_keeps_all. intros x _. apply not_elem_of_nil.
Qed.

(** X14.  Adding a Book and deleting it again: when the author_id of the
    form and the id that POST /add-book assigns fit a signed 64-bit
    integer, GET /delete-book/{id} for that id gives back the store as it
    was before the add. *)
Theorem add_then_delete_book_restores
    (s : Store) (form : gmap string string) (t isbn text : string) (n : Z) :
  form !! "title" = Some t -> form !! "isbn" = Some isbn ->
  form !! "author_id" = Some text -> int text = Some n ->
  in_int64 n = true ->
  in_int64 (next_rowid (map Book.id (books s))) = true ->
  delete_book (store_after s (add_book int s form))
              (next_rowid (map Book.id (books s)))
  = Return (s, redirect_index "Book deleted successfully!").
Proof.
  intros Ht Hi Ha Hn Hfits Hnext.
  unfold add_book, form_getitem, int_call, session_add_book.
  rewrite Ht, Hi, Ha. simpl. rewrite Hn. simpl.
  rewrite (bind_integer_fits _ Hfits). simpl.
  set (b := Book.mk (next_rowid (map Book.id (books s))) t (Some isbn) n).
  set (s1 := {| authors := authors s; books := books s ++ [b] |}).
  assert (Hfresh : forall y, y ∈ books s -> Book.id y <> Book.id b).
  { intros y Hy. apply Z.lt_neq. by apply fresh_book_id. }
  assert (Hget1 : Book_query_get s1 (Book.id b) = Return (Some b)).
  { apply Book_query_get_Return. split; [exact Hnext|].
    exact (find_key_app_new Book.id (books s) b Hfresh). }
  change (delete_book s1 (Book.id b)
          = Return (s, redirect_index "Book deleted successfully!")).
  unfold delete_book. rewrite Hget1. simpl. do 2 f_equal.
  etransitivity; [|apply store_eta]. unfold session_delete_book. f_equal.
  exact (filter_key_fresh Book.id (books s) b Hfresh).
Qed.

(** X15.  The form flows check the author no more than the JSON flow:
    POST /add-book, and POST /update-book/{id} on an existing Book, with
    an author_id that fits a signed 64-bit integer and that no Author has
    are committed, and GET /api/books raises AttributeError on the store
    they leave. *)
Theorem form_writes_accept_dangling_author_id
    (s : Store) (form : gmap string string) (t isbn text : string) (n : Z) :
  form !! "title" = Some t -> form !! "isbn" = Some isbn ->
  form !! "author_id" = Some text -> int text = Some n ->
  in_int64 n = true ->
  ~ live s n ->
  (exists s', add_book int s form
              = Return (s', redirect_index "Book added successfully!") /\
              api_books s' = Raise AttributeError) /\
  (forall i b, Book_query_get s i = Return (Some b) ->
     exists s', update_book int s i form
                = Return (s', redirect_index "Book updated successfully!") /\
                api_books s' = Raise AttributeError).
Proof.
  intros Ht Hi Ha Hn Hfits Hdead.
  assert (Hraise : forall s', authors s' = authors s ->
            (exists b, b ∈ books s' /\ Book.author_id b = n) ->
            api_books s' = Raise AttributeError).
  { intros s' Hauth (b & Hb & Hbn). unfold api_books, Book_query_all.
    destruct (comprehension_book_json_outcome s' (books s'))
      as [[Hl _]|[_ Hr]]; [|done].
    exfalso. rewrite Forall_forall in Hl. apply Hdead.
    destruct (Hl b Hb) as (a & Hin & Hid). exists a.
    rewrite <- Hauth. split; [done|congruence]. }
  split.
  - unfold add_book, form_getitem, int_call, session_add_book.
    rewrite Ht, Hi, Ha. simpl. rewrite Hn. simpl.
    rewrite (bind_integer_fits _ Hfits). simpl.
    eexists. split; [reflexivity|]. apply Hraise; [done|].
    eexists. split; [apply elem_of_app; right; apply list_elem_of_here|done].
  - intros i b Hget.
    pose proof Hget as [_ Hrow]%Book_query_get_Return.
    pose proof (Book_row_Some _ _ _ Hrow) as [Hb Hid].
    unfold update_book, form_getitem, int_call, session_update_book.
    rewrite Hget, Ht, Hi, Ha. simpl. rewrite Hn. simpl.
    rewrite (bind_integer_fits _ Hfits). simpl.
    eexists. split; [reflexivity|]. apply Hraise; [done|].
    exists (Book.mk (Book.id b) t (Some isbn) n). split; [|done].
    simpl.
    apply list_elem_of_In, in_map_iff. exists b.
    split; [by rewrite bool_decide_eq_true_2|by apply list_elem_of_In].
Qed.

End Compositions.

(** ** Pagination: what a returned page always is *)

Section PageShape.

Variable int : string -> option Z.

(** X16.  Whenever GET /api/books-with-pagination returns, page and
    per_page are at least 1, the page holds as many objects as the slice
    of the table has rows and never more than per_page, total is the row
    count and pages its ceiling over per_page; and the page is empty
    only when it is page 1 of a table without rows. *)
Theorem api_books_paginated_returns_valid_pages
    (s : Store) (args : gmap string string) (pg : PageJson) :
  api_books_paginated int s args = Return pg ->
  let k := args_get_int int args "page" 1 in
  let p := args_get_int int args "per_page" 5 in
  let n := Z.of_nat (length (books s)) in
  1 <= k /\ 1 <= p /\
  length (json_books pg)
    = length (take (Z.to_nat p) (drop (Z.to_nat ((k - 1) * p)) (books s))) /\
  Z.of_nat (length (json_books pg)) <= p /\
  json_total pg = n /\ json_pages pg = page_count n p /\
  (json_books pg = [] -> k = 1 /\ n = 0).
Proof.
  intros Hret k p n. revert Hret.
  unfold api_books_paginated, paginate, prepare_page_args, Book_query_all.
  fold k p.
  destruct (Z.ltb_spec k 1) as [?|Hk]; [done|].
  destruct (Z.ltb_spec p 1) as [?|Hp]; [done|]. simpl.
  unfold bind_integer.
  destruct (in_int64 p); simpl; [|done].
  destruct (in_int64 ((k - 1) * p)); simpl; [|done].
  set (slice := take (Z.to_nat p) (drop (Z.to_nat ((k - 1) * p)) (books s))).
  destruct (bool_decide (slice = []) && negb (k =? 1)) eqn:Hempty; [done|].
  simpl. destruct (comprehension (book_json s) slice) as [arr|e] eqn:Hc;
    simpl; [|done].
  intros [= <-]. simpl.
  apply comprehension_Forall2, Forall2_length in Hc.
  split; [done|]. split; [done|]. split; [done|]. split.
  - rewrite <- Hc. unfold slice. rewrite length_take. lia.
  - split; [done|]. split; [done|]. intros ->. simpl in Hc.
    assert (Hnil : slice = []) by (by apply nil_length_inv).
    rewrite bool_decide_eq_true_2 in Hempty by done. simpl in Hempty.
    apply negb_false_iff, Z.eqb_eq in Hempty. split; [done|].
    unfold slice in Hc. rewrite length_take, length_drop, Hempty in Hc.
    unfold n. lia.
Qed.

(** X17.  A page or per_page below 1 is aborted with NotFound in every
    store; an argument whose text int() rejects is read as if it were
    absent (page 1, per_page 5). *)
Theorem api_books_paginated_bad_arguments
    (s : Store) (args : gmap string string) :
  (args_get_int int args "page" 1 < 1 \/
   args_get_int int args "per_page" 5 < 1 ->
   api_books_paginated int s args = Raise NotFound) /\
  (forall text, args !! "page" = Some text -> int text = None ->
     api_books_paginated int s args
     = api_books_paginated int s (delete "page" args)) /\
  (forall text, args !! "per_page" = Some text -> int text = None ->
     api_books_paginated int s args
     = api_books_paginated int s (delete "per_page" args)).
Proof.
  split; [|split].
  - intros Hbad.
    unfold api_books_paginated, paginate, prepare_page_args.
    destruct (Z.ltb_spec (args_get_int int args "page" 1) 1) as [?|Hk]; [done|].
    destruct (Z.ltb_spec (args_get_int int args "per_page" 5) 1) as [?|Hp];
      [done|lia].
  - intros text Hpage Hint. unfold api_books_paginated, args_get_int.
    rewrite Hpage, Hint, lookup_delete_eq, lookup_delete_ne by done. done.
  - intros text Hper Hint. unfold api_books_paginated, args_get_int.
    rewrite Hper, Hint, lookup_delete_eq, lookup_delete_ne by done. done.
Qed.

End PageShape.

(** ** Sorting by the other columns *)

Lemma comprehension_rev {A B : Type} (f : A -> Result B) (l : list A) ys :
  comprehension f l = Return ys ->
  comprehension f (rev l) = Return (rev ys).
Proof.
  revert ys. induction l as [|x l IH]; simpl; intros ys H.
  - by injection H as <-.
  - destruct (f x) as [y|e] eqn:Hx; simpl in H; [|discriminate].
    destruct (comprehension f l) as [zs|e] eqn:Hl; simpl in H; [|discriminate].
    injection H as <-. simpl.
    apply comprehension_app; [by apply IH|]. simpl. by rewrite Hx.
Qed.

Lemma insert_row_last leb x (l : list Book.t) :
  (forall y, y ∈ l -> leb x y = false) -> insert_row leb x l = l ++ [x].
Proof.
  induction l as [|y l IH]; simpl; intros Hall; [done|].
  rewrite Hall by left. f_equal. apply IH. intros z Hz. apply Hall. by right.
Qed.

(** A table in rowid order is already sorted by id, and sorting it by id
    descending reverses it. *)
Lemma order_by_id_rowid_order (l : list Book.t) :
  StronglySorted Z.lt (map Book.id l) ->
  order_by (Asc Book.Cid) l = l /\ order_by (Desc Book.Cid) l = rev l.
Proof.
  unfold order_by. induction l as [|x l IH]; simpl; intros Hs; [done|].
  apply StronglySorted_inv in Hs as [Hs Hx].
  destruct (IH Hs) as [-> ->]. split.
  - destruct l as [|y r]; simpl; [done|].
    apply Forall_inv in Hx. simpl in Hx.
    destruct (Z.leb_spec (Book.id x) (Book.id y)); [done|lia].
  - apply insert_row_last. intros y Hy. simpl.
    apply list_elem_of_In, in_rev, (in_map Book.id) in Hy.
    rewrite List.Forall_forall in Hx. specialize (Hx _ Hy).
    apply Z.leb_gt. lia.
Qed.

Lemma StronglySorted_snoc (l : list Z) n :
  StronglySorted Z.lt l -> (forall i, i ∈ l -> i < n) ->
  StronglySorted Z.lt (l ++ [n]).
Proof.
  induction 1 as [|x l Hs IH Hx]; simpl; intros Hn.
  - repeat constructor.
  - constructor.
    + apply IH. intros i Hi. apply Hn. by right.
    + apply Forall_app. split; [done|]. constructor; [|done]. apply Hn. left.
Qed.

Lemma StronglySorted_map_filter {A : Type} (f : A -> Z) (P : A -> Prop)
    `{forall x, Decision (P x)} (l : list A) :
  StronglySorted Z.lt (map f l) -> StronglySorted Z.lt (map f (filter P l)).
Proof.
  induction l as [|a l IH]; simpl; intros Hs; [constructor|].
  apply StronglySorted_inv in Hs as [Hs Ha]. rewrite filter_cons.
  destruct (decide (P a)); simpl; [|by apply IH].
  constructor; [by apply IH|].
  rewrite List.Forall_forall in Ha. apply List.Forall_forall. intros i Hi.
  apply Ha. apply in_map_iff in Hi as (x & <- & Hx). apply in_map.
  apply list_elem_of_In in Hx. apply list_elem_of_filter in Hx as [_ Hx].
  by apply list_elem_of_In.
Qed.

Lemma ids_below_next (ids : list Z) i : i ∈ ids -> i < next_rowid ids.
Proof. apply next_rowid_fresh. Qed.

Section RowidOrder.

Variable int : string -> option Z.
Variable inherited : string -> option Exn.

(** Every request leaves both tables in strictly increasing id. *)
Lemma serve_rowid_order s r : rowid_order s -> rowid_order (serve int s r).
Proof.
  intros [Ha Hb]. destruct r as [f|i f|i|f|i f|i|d]; simpl.
  - unfold add_author, form_getitem. destruct (f !! "name"); simpl; [|done].
    split; [|done]. simpl. rewrite map_app.
    apply StronglySorted_snoc; [done|apply ids_below_next].
  - unfold update_author, form_getitem.
    lookup_cases i. destruct (Author_row s i) as [a0|]; simpl; [|done].
    destruct (f !! "name") as [n|]; simpl; [|done].
    split; [|done]. simpl.
    pose proof (map_id_update_author (authors s)
                  (Author.mk (Author.id a0) n (f !! "bio") (f !! "city"))) as Hids.
    simpl in Hids. by rewrite Hids.
  - unfold delete_author.
    lookup_cases i. destruct (Author_row s i); simpl; [|done].
    split; simpl; by apply StronglySorted_map_filter.
  - unfold add_book, form_getitem, int_call.
    destruct (f !! "title"); simpl; [|done].
    destruct (f !! "isbn"); simpl; [|done].
    destruct (f !! "author_id") as [text|]; simpl; [|done].
    destruct (int text) as [n|]; simpl; [|done].
    bind_cases n.
    split; [done|]. simpl. rewrite map_app.
    apply StronglySorted_snoc; [done|apply ids_below_next].
  - unfold update_book, form_getitem, int_call.
    lookup_cases i. destruct (Book_row s i) as [b0|]; simpl; [|done].
    destruct (f !! "title") as [t|]; simpl; [|done].
    destruct (f !! "isbn") as [isbn|]; simpl; [|done].
    destruct (f !! "author_id") as [text|]; simpl; [|done].
    destruct (int text) as [n|]; simpl; [|done].
    bind_cases n.
    split; [done|]. simpl.
    pose proof (map_id_update_book (books s)
                  (Book.mk (Book.id b0) t (Some isbn) n)) as Hids.
    simpl in Hids. by rewrite Hids.
  - unfold delete_book.
    lookup_cases i. destruct (Book_row s i); simpl; [|done].
    split; [done|]. simpl. by apply StronglySorted_map_filter.
  - unfold api_add_book.
    destruct (data_title d) as [t|]; simpl; [|done].
    destruct (data_isbn d) as [isbn|]; simpl; [|done].
    destruct (data_author_id d) as [a|]; simpl; [|done].
    destruct a as [n|]; simpl; [|done].
    bind_cases n. destruct t; simpl; [|done].
    split; [done|]. simpl. rewrite map_app.
    apply StronglySorted_snoc; [done|apply ids_below_next].
Qed.

Lemma reachable_rowid_order s : reachable int s -> rowid_order s.
Proof.
  induction 1 as [|s r _ IH]; [split; constructor|by apply serve_rowid_order].
Qed.

(** X18.  In every reachable store, sort=id gives the array of
    GET /api/books itself (the same answer, or the same exception) for
    any order other than desc, and that array reversed for order=desc. *)
Theorem api_books_sorting_by_id_is_table_order
    (s : Store) (args : gmap string string) :
  reachable int s ->
  args !! "sort" = Some "id" ->
  (args !! "order" <> Some "desc" ->
   api_books_sorting inherited s args = api_books s) /\
  (args !! "order" = Some "desc" ->
   forall arr, api_books s = Return arr ->
               api_books_sorting inherited s args = Return (rev arr)).
Proof.
  intros [_ Hsorted]%reachable_rowid_order Hsort.
  destruct (order_by_id_rowid_order _ Hsorted) as [Hasc Hdesc].
  assert (Hname : args_get args "sort" "title" = "id")
    by (unfold args_get; by rewrite Hsort).
  split.
  - intros Horder.
    rewrite (api_books_sorting_column inherited s args "id" Book.Cid false
               Hname eq_refl Horder).
    by rewrite Hasc.
  - intros Horder arr Harr.
    rewrite (api_books_sorting_column inherited s args "id" Book.Cid true
               Hname eq_refl Horder).
    rewrite Hdesc. by apply comprehension_rev.
Qed.

(** A request that sorts by a column, in a store where every Book has
    its Author: the answer is a permutation of the /api/books array, in
    any order of the objects that the order of the rows implies. *)
Lemma api_books_sorting_rendered
    (s : Store) (args : gmap string string) (name : string)
    (c : Book.column) (desc : bool) (R : BookJson -> BookJson -> Prop) :
  referential_integrity s ->
  args !! "sort" = Some name ->
  getattr_Book inherited name (AttrColumn Book.Ctitle) = AttrColumn c ->
  (if desc then args !! "order" = Some "desc"
   else args !! "order" <> Some "desc") ->
  (forall x y j1 j2, renders s x j1 -> renders s y j2 ->
     in_order (if desc then Desc c else Asc c) x y -> R j1 j2) ->
  exists arr all,
    api_books_sorting inherited s args = Return arr /\
    api_books s = Return all /\ arr ≡ₚ all /\ Sorted R arr.
Proof.
  intros Hint Hsort Hattr Horder HR.
  set (o := if desc then Desc c else Asc c).
  assert (Hperm : order_by o (books s) ≡ₚ books s) by apply order_by_Permutation.
  assert (Hlive : Forall (fun b => live s (Book.author_id b))
                         (order_by o (books s))) by (by rewrite Hperm).
  exists (map (json_or_blank s) (order_by o (books s))),
         (map (json_or_blank s) (books s)).
  split.
  { rewrite (api_books_sorting_column inherited s args name c desc);
      [by apply comprehension_map| |done|done].
    unfold args_get. by rewrite Hsort. }
  split; [by apply comprehension_map|].
  split; [by apply Permutation_map|].
  apply (renders_Sorted s (in_order o)) with (rows := order_by o (books s));
    [exact HR|by apply comprehension_renders, comprehension_map
    |apply order_by_Sorted].
Qed.

(** X19.  With every Book owned by an Author, sort=id answers with the
    objects of /api/books in non-decreasing id (non-increasing for
    order=desc), and sort=isbn with those that have a null isbn first and
    the others in non-decreasing isbn. *)
Theorem api_books_sorting_by_id_and_isbn
    (s : Store) (args : gmap string string) (desc : bool) :
  referential_integrity s ->
  (if desc then args !! "order" = Some "desc"
   else args !! "order" <> Some "desc") ->
  (args !! "sort" = Some "id" ->
   exists arr all,
     api_books_sorting inherited s args = Return arr /\
     api_books s = Return all /\ arr ≡ₚ all /\
     Sorted (if desc then id_nonincreasing else id_nondecreasing) arr) /\
  (args !! "sort" = Some "isbn" -> desc = false ->
   exists arr all,
     api_books_sorting inherited s args = Return arr /\
     api_books s = Return all /\ arr ≡ₚ all /\
     Sorted isbn_nulls_first arr).
Proof.
  intros Hint Horder. split.
  - intros Hsort.
    apply (api_books_sorting_rendered s args "id" Book.Cid desc);
      [done|done|done|done|].
    intros x y j1 j2 (Hx & _) (Hy & _). unfold in_order.
    destruct desc; simpl; unfold id_nonincreasing, id_nondecreasing;
      rewrite Hx, Hy; apply Z.leb_le.
  - intros Hsort ->.
    apply (api_books_sorting_rendered s args "isbn" Book.Cisbn false);
      [done|done|done|done|].
    intros x y j1 j2 (_ & _ & Hx & _) (_ & _ & Hy & _).
    unfold in_order, isbn_nulls_first. simpl. rewrite Hx, Hy.
    unfold option_leb. destruct (Book.isbn x), (Book.isbn y); done.
Qed.

(** X20.  Two updates of the same Author: when the second form has a
    name, the store after both requests is the store after the second
    alone. *)
Theorem update_author_last_write_wins
    (s : Store) (i : Z) (form1 form2 : gmap string string) (n2 : string) :
  form2 !! "name" = Some n2 ->
  serve int (serve int s (PostUpdateAuthor i form1)) (PostUpdateAuthor i form2)
  = serve int s (PostUpdateAuthor i form2).
Proof.
  intros Hname2.
  change (store_after (store_after s (update_author s i form1))
            (update_author (store_after s (update_author s i form1)) i form2)
          = store_after s (update_author s i form2)).
  destruct (Author_query_get s i) as [[a|]|e] eqn:Hquery.
  2: { assert (Hmiss : forall f, update_author s i f = Raise NotFound)
         by (intros f; unfold update_author; by rewrite Hquery).
       rewrite (Hmiss form1). reflexivity. }
  2: { assert (Hmiss : forall f, update_author s i f = Raise e)
         by (intros f; unfold update_author; by rewrite Hquery).
       rewrite (Hmiss form1). reflexivity. }
  pose proof Hquery as [Hfits Hget]%Author_query_get_Return.
  pose proof (Author_row_Some _ _ _ Hget) as [_ Hid].
  set (a2 := Author.mk (Author.id a) n2 (form2 !! "bio") (form2 !! "city")).
  assert (Hsecond : update_author s i form2
                    = Return (session_update_author s a2,
                              redirect_index "Author updated successfully!")).
  { unfold update_author, form_getitem. by rewrite Hquery, Hname2. }
  destruct (form1 !! "name") as [n1|] eqn:Hname1.
  2: { assert (Hfirst : update_author s i form1
                        = Raise (BadRequestKeyError "name")).
       { unfold update_author, form_getitem. by rewrite Hquery, Hname1. }
       rewrite Hfirst. simpl. done. }
  set (a1 := Author.mk (Author.id a) n1 (form1 !! "bio") (form1 !! "city")).
  assert (Hfirst : update_author s i form1
                   = Return (session_update_author s a1,
                             redirect_index "Author updated successfully!")).
  { unfold update_author, form_getitem. by rewrite Hquery, Hname1. }
  rewrite Hfirst, Hsecond. simpl.
  assert (Hfound : Author_query_get (session_update_author s a1) i
                   = Return (Some a1)).
  { apply Author_query_get_Return. split; [done|].
    pose proof Hget as Hget'. unfold Author_row in Hget'.
    rewrite <- Hid in Hget'. rewrite <- Hid.
    exact (find_author_updated (authors s) a a1 Hget'). }
  unfold update_author, form_getitem. rewrite Hfound, Hname2. simpl.
  unfold session_update_author. simpl. f_equal.
  rewrite map_map. apply map_ext. intros x.
  destruct (decide (Author.id x = Author.id a)) as [Hx|Hx].
  - rewrite !(bool_decide_eq_true_2 _ Hx). simpl.
    by rewrite bool_decide_eq_true_2.
  - by rewrite !(bool_decide_eq_false_2 _ Hx).
Qed.

End RowidOrder.

(** ** The index page *)

Section IndexPage.

Variable numeric : string -> option Z.

(** X21.  The index page lists both tables as they are; an entity to
    edit, when there is one, is a row of its table whose id is the
    integer the argument's text equals, and an absent or empty argument,
    a text that equals no integer, and an id no row has all give no
    entity (and no error). *)
Theorem index_edit_entities (s : Store) (args : gmap string string) :
  let ctx := index numeric s args in
  ctx_authors ctx = authors s /\ ctx_books ctx = books s /\
  (forall a, ctx_edit_author ctx = Some a ->
     a ∈ authors s /\
     exists key, args !! "edit_author" = Some key /\ key <> "" /\
                 numeric key = Some (Author.id a)) /\
  (forall b, ctx_edit_book ctx = Some b ->
     b ∈ books s /\
     exists key, args !! "edit_book" = Some key /\ key <> "" /\
                 numeric key = Some (Book.id b)) /\
  (args !! "edit_author" = None \/ args !! "edit_author" = Some "" \/
   (exists key, args !! "edit_author" = Some key /\
      (numeric key = None \/ exists k, numeric key = Some k /\ ~ live s k)) ->
   ctx_edit_author ctx = None).
Proof.
  unfold index, Author_query_all, Book_query_all. simpl.
  split; [done|]. split; [done|]. split; [|split].
  - intros a. destruct (args !! "edit_author") as [key|]; [|done].
    destruct (decide (key = "")) as [|Hkey]; [done|].
    unfold Author_query_get_text.
    destruct (numeric key) as [k|] eqn:Hk; [|done].
    intros [Hin Hid]%Author_row_Some. split; [done|].
    exists key. by rewrite Hid.
  - intros b. destruct (args !! "edit_book") as [key|]; [|done].
    destruct (decide (key = "")) as [|Hkey]; [done|].
    unfold Book_query_get_text.
    destruct (numeric key) as [k|] eqn:Hk; [|done].
    intros [Hin Hid]%Book_row_Some. split; [done|].
    exists key. by rewrite Hid.
  - intros [-> | [-> | (key & -> & Hkey)]]; [done|done|].
    destruct (decide (key = "")); [done|]. unfold Author_query_get_text.
    destruct Hkey as [-> | (k & -> & Hdead)]; [done|].
    destruct (Author_row s k) as [a|] eqn:E; [|done].
    exfalso. apply Hdead. apply Author_row_Some in E as [Hin Hid].
    by exists a.
Qed.

(** X22.  The index page after a write, asked to edit the row of id i:
    after POST /update-author/{i} it shows the Author with the submitted
    values; after GET /delete-author/{i} and after GET /delete-book/{i}
    it shows no entity, and lists no Book of id i after the latter. *)
Theorem index_after_writes (s : Store) (i : Z) (key : string) :
  key <> "" -> numeric key = Some i ->
  (forall a form n args,
     Author_query_get s i = Return (Some a) -> form !! "name" = Some n ->
     args !! "edit_author" = Some key ->
     ctx_edit_author (index numeric (store_after s (update_author s i form)) args)
     = Some (Author.mk i n (form !! "bio") (form !! "city"))) /\
  (forall a args,
     Author_query_get s i = Return (Some a) ->
     args !! "edit_author" = Some key ->
     ctx_edit_author (index numeric (store_after s (delete_author s i)) args)
     = None) /\
  (forall b args,
     Book_query_get s i = Return (Some b) -> args !! "edit_book" = Some key ->
     let ctx := index numeric (store_after s (delete_book s i)) args in
     ctx_edit_book ctx = None /\
     forall x, x ∈ ctx_books ctx -> Book.id x <> i).
Proof.
  intros Hkey Hnum. split; [|split].
  - intros a form n args Hquery Hname Hargs.
    pose proof Hquery as [_ Hget]%Author_query_get_Return.
    pose proof (Author_row_Some _ _ _ Hget) as [_ Hid].
    unfold update_author, form_getitem. rewrite Hquery, Hname. simpl.
    rewrite Hargs, decide_False by done.
    unfold Author_query_get_text. rewrite Hnum. rewrite <- Hid.
    pose proof Hget as Hget'. unfold Author_row in Hget'.
    rewrite <- Hid in Hget'.
    exact (find_author_updated (authors s) a
             (Author.mk (Author.id a) n (form !! "bio") (form !! "city")) Hget').
  - intros a args Hquery Hargs.
    pose proof Hquery as [_ Hget]%Author_query_get_Return.
    pose proof (Author_row_Some _ _ _ Hget) as [_ Hid].
    unfold delete_author. rewrite Hquery. simpl.
    rewrite Hargs, decide_False by done.
    unfold Author_query_get_text. rewrite Hnum. rewrite <- Hid.
    exact (find_key_filter_gone Author.id (authors s) (Author.id a)).
  - intros b args Hquery Hargs.
    pose proof Hquery as [_ Hget]%Book_query_get_Return.
    pose proof (Book_row_Some _ _ _ Hget) as [_ Hid].
    unfold delete_book. rewrite Hquery. simpl.
    rewrite Hargs, decide_False by done. split.
    + unfold Book_query_get_text. rewrite Hnum. rewrite <- Hid.
      exact (find_key_filter_gone Book.id (books s) (Book.id b)).
    + intros x Hx. unfold Book_query_all, session_delete_book in Hx.
      simpl in Hx. apply list_elem_of_filter in Hx as [Hx _]. congruence.
Qed.

End IndexPage.

(** ** The models' reprs *)

Lemma append_char_inj (s1 s2 : string) (c : ascii) :
  s1 +:+ String c "" = s2 +:+ String c "" -> s1 = s2.
Proof.
  revert s2. induction s1 as [|a s1 IH]; intros [|b s2]; simpl; intros H.
  - done.
  - injection H as _ H. by destruct s2.
  - injection H as _ H. by destruct s1.
  - injection H as -> H. f_equal. by apply IH.
Qed.

(** X23.  The repr of an Author tells its name and nothing else, that of
    a Book its title and nothing else, and no Author has the repr of a
    Book. *)
Theorem repr_tells_the_name (a1 a2 : Author.t) (b1 b2 : Book.t) :
  (Author_repr a1 = Author_repr a2 <-> Author.name a1 = Author.name a2) /\
  (Book_repr b1 = Book_repr b2 <-> Book.title b1 = Book.title b2) /\
  Author_repr a1 <> Book_repr b1.
Proof.
  unfold Author_repr, Book_repr. split; [|split].
  - split; [|by intros ->]. simpl. intros H.
    injection H as H. by apply append_char_inj in H.
  - split; [|by intros ->]. simpl. intros H.
    injection H as H. by apply append_char_inj in H.
  - simpl. discriminate.
Qed.

(** ** The further properties at sample requests *)

Lemma library_unique_keys : unique_keys library.
Proof.
  split; simpl; apply (bool_decide_unpack _); vm_compute; exact I.
Defined.

(** GET /api/books on the store that one POST /api/add-book with an
    unknown author_id leaves. *)
Lemma api_books_raises_on_orphan_store :
  reachable decimal orphan_store /\
  Book.mk 1 "Orphan" None 7 ∈ books orphan_store /\
  api_books orphan_store = Raise AttributeError /\
  api_status false (api_books orphan_store) = 500.
Proof.
  split; [apply reachable_served, reachable_created|].
  split; [apply list_elem_of_here|].
  destruct (api_books_raises_on_book_without_author false orphan_store
              (Book.mk 1 "Orphan" None 7)) as (Hraise & Hstatus & _).
  - apply list_elem_of_here.
  - intros (a & Ha & _). simpl in Ha. by apply elem_of_nil in Ha.
  - split; [exact Hraise|exact Hstatus].
Defined.

(** Deleting Book 2 of the sample store; there is no Book 9. *)
Lemma delete_book_contract_library :
  delete_book library 9223372036854775808 = Raise OverflowError /\
  delete_book library 9 = Raise NotFound /\
  (exists s',
     delete_book library 2
       = Return (s', redirect_index "Book deleted successfully!") /\
     Book_query_get s' 2 = Return None /\
     Book_query_get s' 3 = Book_query_get library 3).
Proof.
  split; [|split].
  - destruct (delete_book_contract library 9223372036854775808) as [Hover _].
    apply Hover. reflexivity.
  - destruct (delete_book_contract library 9) as (_ & Hmiss & _).
    apply Hmiss. reflexivity.
  - destruct (delete_book_contract library 2) as (_ & _ & Hdel).
    destruct (Hdel (Book.mk 2 "Ficciones" None 2) eq_refl)
      as (s' & Hret & _ & _ & _ & Hgone & _ & Hother).
    exists s'. split; [exact Hret|]. split; [exact Hgone|].
    apply Hother. discriminate.
Defined.

(** A fourth Book for the sample store, a form whose author_id is a
    name, and one whose author_id is 2^63. *)
Lemma add_book_contract_library :
  Book_row (store_after library (add_book decimal library aleph_form)) 4
    = Some (Book.mk 4 "El Aleph" (Some "222") 1) /\
  add_book decimal library text_author_form = Raise ValueError /\
  add_book decimal library huge_author_form = Raise OverflowError.
Proof.
  split; [|split].
  - pose proof (add_book_contract decimal library aleph_form
                  "El Aleph" "222" "1" eq_refl eq_refl eq_refl) as H.
    change (decimal "1") with (Some 1) in H.
    change (in_int64 1) with true in H.
    destruct H as (Hadd & _ & Hget & _). rewrite Hadd. exact Hget.
  - pose proof (add_book_contract decimal library text_author_form
                  "El Aleph" "222" "Borges" eq_refl eq_refl eq_refl) as H.
    change (decimal "Borges") with (@None Z) in H.
    destruct H as [H _]. exact H.
  - pose proof (add_book_contract decimal library huge_author_form
                  "El Aleph" "222" "9223372036854775808"
                  eq_refl eq_refl eq_refl) as H.
    change (decimal "9223372036854775808")
      with (Some 9223372036854775808) in H.
    change (in_int64 9223372036854775808) with false in H.
    destruct H as [H _]. exact H.
Defined.

(** Updating Book 2 of the sample store leaves Book 3 as it was. *)
Lemma update_book_frame_library :
  exists s',
    update_book decimal library 2 aleph_form
      = Return (s', redirect_index "Book updated successfully!") /\
    authors s' = authors library /\
    Book_query_get s' 3 = Book_query_get library 3.
Proof.
  pose proof (update_book_frame decimal library 2 (Book.mk 2 "Ficciones" None 2)
                aleph_form "El Aleph" "222" "1"
                eq_refl eq_refl eq_refl eq_refl) as H.
  change (decimal "1") with (Some 1) in H.
  change (in_int64 1) with true in H.
  destruct H as (s' & Hret & Hauthors & _ & _ & Hother).
  exists s'. split; [exact Hret|]. split; [exact Hauthors|].
  apply Hother. discriminate.
Defined.

(** Renaming Austen shows in /api/books. *)
Lemma update_author_renames_library :
  exists s' arr,
    update_author library 1 jane_form
      = Return (s', redirect_index "Author updated successfully!") /\
    api_books s' = Return arr /\ length arr = 3%nat.
Proof.
  destruct (update_author_renames_in_api_books library 1
              (Author.mk 1 "Austen" (Some "novelist") (Some "Bath"))
              jane_form "Jane Austen" library_integrity eq_refl eq_refl)
    as (s' & arr & Hret & Harr & Hall).
  exists s', arr. split; [exact Hret|]. split; [exact Harr|].
  apply Forall2_length in Hall. symmetry. exact Hall.
Defined.

(** Deleting Austen leaves Borges and his Book. *)
Lemma delete_author_frame_library :
  delete_author library 9223372036854775808 = Raise OverflowError /\
  delete_author library 9 = Raise NotFound /\
  (exists s',
     delete_author library 1
       = Return (s', redirect_index "Author deleted successfully!") /\
     Author_query_get s' 2 = Author_query_get library 2 /\
     Book.mk 2 "Ficciones" None 2 ∈ books s').
Proof.
  split; [|split].
  - destruct (delete_author_frame library 9223372036854775808) as [Hover _].
    apply Hover. reflexivity.
  - destruct (delete_author_frame library 9) as (_ & Hmiss & _).
    apply Hmiss. reflexivity.
  - destruct (delete_author_frame library 1) as (_ & _ & Hdel).
    destruct (Hdel (Author.mk 1 "Austen" (Some "novelist") (Some "Bath"))
                library_unique_keys eq_refl)
      as (s' & Hret & _ & Hother & Hbooks).
    exists s'. split; [exact Hret|]. split; [apply Hother; discriminate|].
    apply Hbooks. split; [|discriminate].
    apply list_elem_of_further, list_elem_of_here.
Defined.

(** Carroll added to the sample store and deleted again. *)
Lemma add_then_delete_author_library :
  delete_author (store_after library (add_author library carroll_form)) 3
  = Return (library, redirect_index "Author deleted successfully!").
Proof.
  exact (add_then_delete_author_restores library carroll_form "Carroll"
           library_integrity eq_refl eq_refl).
Defined.

(** A fourth Book added to the sample store and deleted again. *)
Lemma add_then_delete_book_library :
  delete_book (store_after library (add_book decimal library aleph_form)) 4
  = Return (library, redirect_index "Book deleted successfully!").
Proof.
  exact (add_then_delete_book_restores decimal library aleph_form
           "El Aleph" "222" "1" 1 eq_refl eq_refl eq_refl eq_refl
           eq_refl eq_refl).
Defined.

(** A Book for Author 9, whom the sample store does not have. *)
Lemma form_writes_dangling_library :
  (exists s', add_book decimal library dangling_form
              = Return (s', redirect_index "Book added successfully!") /\
              api_books s' = Raise AttributeError) /\
  (exists s', update_book decimal library 2 dangling_form
              = Return (s', redirect_index "Book updated successfully!") /\
              api_books s' = Raise AttributeError).
Proof.
  assert (Hdead : ~ live library 9).
  { intros (a & Ha & Hid). simpl in Ha.
    rewrite !elem_of_cons, elem_of_nil in Ha.
    destruct Ha as [-> | [-> | []]]; discriminate. }
  destruct (form_writes_accept_dangling_author_id decimal library dangling_form
              "El Aleph" "" "9" 9 eq_refl eq_refl eq_refl eq_refl eq_refl
              Hdead)
    as [Hadd Hupdate].
  split; [exact Hadd|].
  exact (Hupdate 2 (Book.mk 2 "Ficciones" None 2) eq_refl).
Defined.

(** Page 2 of the sample store in pages of two holds one object. *)
Lemma api_books_paginated_page_two :
  exists pg,
    api_books_paginated decimal library (page_request 2) = Return pg /\
    length (json_books pg) = 1%nat /\ json_total pg = 3 /\ json_pages pg = 2.
Proof.
  eexists. split; [reflexivity|].
  destruct (api_books_paginated_returns_valid_pages decimal library
              (page_request 2) _ eq_refl)
    as (_ & _ & Hlen & _ & Htotal & Hpages & _).
  split; [exact Hlen|]. split; [exact Htotal|exact Hpages].
Defined.

(** ?page=0 is refused, and ?page=two is read as page 1. *)
Lemma api_books_paginated_bad_arguments_library :
  api_books_paginated decimal library page_zero = Raise NotFound /\
  api_books_paginated decimal library page_text
  = api_books_paginated decimal library (delete "page" page_text).
Proof.
  split.
  - apply (api_books_paginated_bad_arguments decimal library page_zero).
    left. reflexivity.
  - destruct (api_books_paginated_bad_arguments decimal library page_text)
      as (_ & Hpage & _).
    exact (Hpage "two" eq_refl eq_refl).
Defined.

(** The store after two Authors and three Books, sorted by id: the
    three objects in table order, and in the opposite order for desc. *)
Lemma api_books_sorting_by_id_busy_store :
  api_books busy_store = Return busy_array /\
  api_books_sorting some_inherited busy_store sort_by_id
    = Return busy_array /\
  api_books_sorting some_inherited busy_store sort_by_id_desc
    = Return (rev busy_array) /\
  rev busy_array <> busy_array.
Proof.
  assert (Hall : api_books busy_store = Return busy_array) by reflexivity.
  destruct (api_books_sorting_by_id_is_table_order decimal some_inherited
              busy_store sort_by_id busy_store_reachable eq_refl)
    as [Hasc _].
  destruct (api_books_sorting_by_id_is_table_order decimal some_inherited
              busy_store sort_by_id_desc busy_store_reachable eq_refl)
    as [_ Hdesc].
  split; [exact Hall|]. split; [|split].
  - rewrite <- Hall. apply Hasc. discriminate.
  - exact (Hdesc eq_refl busy_array Hall).
  - discriminate.
Defined.

(** The sample store by isbn: the Book without isbn comes first. *)
Lemma api_books_sorting_by_isbn_library :
  exists arr,
    api_books_sorting some_inherited library sort_by_isbn = Return arr /\
    Sorted isbn_nulls_first arr.
Proof.
  destruct (api_books_sorting_by_id_and_isbn some_inherited library
              sort_by_isbn false library_integrity ltac:(discriminate))
    as [_ Hisbn].
  destruct (Hisbn eq_refl eq_refl) as (arr & all & Hret & _ & _ & Hsorted).
  exists arr. split; [exact Hret|exact Hsorted].
Defined.

(** Two renamings of Austen: the second one stands. *)
Lemma update_author_last_write_wins_library :
  serve decimal (serve decimal library (PostUpdateAuthor 1 carroll_form))
        (PostUpdateAuthor 1 jane_form)
  = serve decimal library (PostUpdateAuthor 1 jane_form).
Proof.
  exact (update_author_last_write_wins decimal library 1 carroll_form jane_form
           "Jane Austen" eq_refl).
Defined.

(** ?edit_author=1&edit_book= on the sample store: Austen, and no Book. *)
Lemma index_edit_entities_library :
  ctx_edit_author (index decimal library edit_first)
    = Some (Author.mk 1 "Austen" (Some "novelist") (Some "Bath")) /\
  ctx_edit_book (index decimal library edit_first) = None /\
  Author.mk 1 "Austen" (Some "novelist") (Some "Bath") ∈ authors library.
Proof.
  split; [reflexivity|]. split; [reflexivity|].
  destruct (index_edit_entities decimal library edit_first)
    as (_ & _ & Hauthor & _).
  destruct (Hauthor (Author.mk 1 "Austen" (Some "novelist") (Some "Bath"))
              eq_refl) as [Hin _].
  exact Hin.
Defined.

(** The edit form for Austen after renaming her, and after deleting her. *)
Lemma index_after_writes_library :
  ctx_edit_author
    (index decimal (store_after library (update_author library 1 jane_form))
           edit_first)
    = Some (Author.mk 1 "Jane Austen" None None) /\
  ctx_edit_author
    (index decimal (store_after library (delete_author library 1)) edit_first)
    = None.
Proof.
  destruct (index_after_writes decimal library 1 "1" ltac:(discriminate) eq_refl)
    as (Hupdate & Hdelete & _).
  split.
  - exact (Hupdate (Author.mk 1 "Austen" (Some "novelist") (Some "Bath"))
             jane_form "Jane Austen" edit_first eq_refl eq_refl eq_refl).
  - exact (Hdelete (Author.mk 1 "Austen" (Some "novelist") (Some "Bath"))
             edit_first eq_refl eq_refl).
Defined.
